(** * Image upload console and Imgur relay: a shallow embedding

    The development follows the two halves of the application.

    - [Router] embeds the Express router of the API (the handlers for
      POST /images, GET /images, GET /image/:imageid and
      DELETE /image/:imageid).  The image host is an oracle: every outbound
      axios call is answered by an [AxiosOutcome], and every handler returns
      its HTTP response together with the log of outbound calls it made.
    - [UploadConsole] embeds the React component that owns the selected
      files.  The file records are JavaScript objects that the handlers
      mutate in place, so the component state is a list of references into an
      object store. *)

From Stdlib Require Import ZArith Ascii String.
From stdpp Require Import gmap strings list.

Local Open Scope string_scope.
Local Open Scope Z_scope.

(** ** JavaScript strings: the two regular expressions and [split] *)

Module JsString.

Definition is_lower (c : ascii) : bool :=
  let n := nat_of_ascii c in ((97 <=? n) && (n <=? 122))%nat.

Definition is_upper (c : ascii) : bool :=
  let n := nat_of_ascii c in ((65 <=? n) && (n <=? 90))%nat.

Definition is_digit (c : ascii) : bool :=
  let n := nat_of_ascii c in ((48 <=? n) && (n <=? 57))%nat.

(** The character class [[a-zA-Z0-9]]. *)
Definition is_alnum (c : ascii) : bool := is_lower c || is_upper c || is_digit c.

Fixpoint all_chars (p : ascii → bool) (s : string) : bool :=
  match s with
  | EmptyString => true
  | String c s' => p c && all_chars p s'
  end.

Definition is_empty (s : string) : bool :=
  match s with EmptyString => true | _ => false end.

(** Does [/(\.[a-z]+)$/] match with the match starting at the head of [s]:
    a dot, then one or more lowercase letters, then the end of the input. *)
Definition ext_at (s : string) : bool :=
  match s with
  | String c rest =>
      Ascii.eqb c "."%char && negb (is_empty rest) && all_chars is_lower rest
  | EmptyString => false
  end.

(** [s.replace(/(\.[a-z]+)$/, token + "$1")]: the engine tries the start
    positions from left to right and rewrites the first match only. *)
Fixpoint replace_ext (token s : string) : string :=
  if ext_at s then token +:+ s
  else match s with
       | EmptyString => EmptyString
       | String c s' => String c (replace_ext token s')
       end.

(** [s.split(".")], kept non-empty by construction: the piece being read
    and the pieces that follow it. *)
Fixpoint split_dot (s : string) : string * list string :=
  match s with
  | EmptyString => (EmptyString, [])
  | String c s' =>
      let '(piece, more) := split_dot s' in
      if Ascii.eqb c "."%char then (EmptyString, piece :: more)
      else (String c piece, more)
  end.

Definition split (s : string) : list string :=
  let '(piece, more) := split_dot s in piece :: more.

(** [arr.pop()] on a fresh array: its last element. *)
Definition pop (l : list string) : option string := last l.

Fixpoint has_dot (s : string) : bool :=
  match s with
  | EmptyString => false
  | String c s' => Ascii.eqb c "."%char || has_dot s'
  end.

(** [s] ends with a dot followed by one or more lowercase letters. *)
Definition has_lower_ext (s : string) : Prop :=
  ∃ base ext, s = base +:+ String "."%char ext
              ∧ ext ≠ EmptyString ∧ all_chars is_lower ext = true.

(** A string as [length] and [slice] see it: the sequence of its UTF-16
    code units.  A character outside the basic plane takes two units, a
    surrogate pair. *)
Definition CodeUnits : Type := list N.

(** The code units of a text of ASCII characters: one unit per character,
    the character's code. *)
Definition code_units (s : string) : CodeUnits :=
  N_of_ascii <$> list_ascii_of_string s.

(** [s.length] *)
Definition js_length (s : CodeUnits) : nat := length s.

(** [s.slice(0, n)] for a literal [n ≥ 0]: the first [n] code units, all of
    them when there are fewer. *)
Definition slice_to (n : nat) (s : CodeUnits) : CodeUnits := take n s.

(** [s + t] *)
Definition js_concat (s t : CodeUnits) : CodeUnits := (s ++ t)%list.

End JsString.

(** ** The API router *)

Module Router.
Import JsString.

Definition IMGUR_ACCOUNT_IMAGES_ENDPOINT : string :=
  "https://api.imgur.com/3/account/me/images".
Definition IMGUR_IMAGE_ENDPOINT : string := "https://api.imgur.com/3/image".

(** A file as multer hands it to the handler. *)
Record MulterFile := {
  originalname : string;
  mimetype : string;
  buffer : string;
}.

(** What axios rejects with.  [error?.response?.status] is read through
    optional chaining, so the thrown value may be nullish, may lack a
    response, and the response may lack a status. *)
Record HostResponse := { resp_status : option Z }.

Inductive Thrown :=
| ThrowNullish
| ThrowError (message : option string) (response : option HostResponse).

Inductive AxiosOutcome (A : Type) :=
| Fulfilled (status : Z) (data : A)
| Rejected (error : Thrown).
Arguments Fulfilled {A} status data.
Arguments Rejected {A} error.

(** [error?.response?.status] *)
Definition error_status (e : Thrown) : option Z :=
  match e with
  | ThrowError _ (Some r) => resp_status r
  | _ => None
  end.

(** The per-file record the upload handler builds; [status] is a property
    that is only assigned after an outbound call. *)
Record ResponseTracker := {
  file : string;
  success : bool;
  typeError : bool;
  status : option Z;
}.

(** An outbound POST to the image endpoint.  The [image] field of the form
    is the base64 text of [call_image]. *)
Record UploadCall := {
  call_url : string;
  call_image : string;
  call_title : string;
}.

Inductive jsval :=
| JNull
| JBool (b : bool)
| JNum (n : Z)
| JStr (s : string).

Inductive Body :=
| Text (s : string)
| Json (o : gmap string jsval)
| JsonList (l : list (gmap string jsval))
| Empty.

Record HttpResponse := { code : Z; body : Body }.

Definition ALLOWED_TYPES : list string :=
  ["image/jpeg"; "image/jpg"; "image/gif"; "image/png"; "image/apng"; "image/tiff"].

(** [ALLOWED_TYPES.includes(m)] *)
Definition allowed (m : string) : bool := existsb (String.eqb m) ALLOWED_TYPES.

Definition form_of (f : MulterFile) : UploadCall :=
  {| call_url := IMGUR_IMAGE_ENDPOINT;
     call_image := buffer f;
     call_title := originalname f |}.

(** The body of the [map] callback of POST /images for one file.  [r] is the
    answer the host gives if the outbound call is made. *)
Definition uploadFile (r : AxiosOutcome unit) (f : MulterFile)
  : ResponseTracker * list UploadCall :=
  let responseTracker :=
    {| file := originalname f; success := false; typeError := false;
       status := None |} in
  if negb (allowed (mimetype f)) then
    ({| file := file responseTracker; success := success responseTracker;
        typeError := true; status := status responseTracker |}, [])
  else
    match r with
    | Fulfilled s _ =>
        ({| file := file responseTracker; success := s =? 200;
            typeError := typeError responseTracker; status := Some s |},
         [form_of f])
    | Rejected e =>
        ({| file := file responseTracker; success := success responseTracker;
            typeError := typeError responseTracker;
            status := Some (default 500 (error_status e)) |},
         [form_of f])
    end.

Definition SOME_FAILED_MESSAGE : string :=
  "Failed to upload some images to Imgur. Ensure that all files uploaded are of the correct size and type.".

(** The three-way choice that closes POST /images. *)
Definition aggregate (responses : list ResponseTracker) : HttpResponse :=
  if forallb success responses then
    {| code := 200; body := Text "success" |}
  else if existsb (λ response, bool_decide (status response = Some 500)) responses then
    {| code := 500; body := Text "Failed to upload images to Imgur." |}
  else
    {| code := 400; body := Text SOME_FAILED_MESSAGE |}.

Record PostResult := {
  post_response : HttpResponse;
  post_trackers : list ResponseTracker;
  post_calls : list UploadCall;
}.

(** POST /images.  [files] is [req.files] ([None] when multer left it
    unset); [net i] answers the outbound call made for the file at
    position [i]. *)
Definition postImages (net : nat → AxiosOutcome unit)
    (files : option (list MulterFile)) : PostResult :=
  match files with
  | None | Some [] =>
      {| post_response :=
           {| code := 400;
              body := Text "No files attached or files are incorrectly formatted." |};
         post_trackers := [];
         post_calls := [] |}
  | Some fs =>
      let results := imap (λ i f, uploadFile (net i) f) fs in
      let responses := fst <$> results in
      {| post_response := aggregate responses;
         post_trackers := responses;
         post_calls := concat (snd <$> results) |}
  end.

(** The size token of GET /images. *)
Definition thumbnailSize : string := "m".

(** The [map] callback of GET /images: [{...image, link: image.link.replace(..)}].
    [None] stands for the TypeError raised when [image.link] is not a string. *)
Definition toThumbnail (image : gmap string jsval) : option (gmap string jsval) :=
  match image !! "link" with
  | Some (JStr link) =>
      Some (<["link" := JStr (replace_ext thumbnailSize link)]> image)
  | _ => None
  end.

(** GET /images.  The payload of a fulfilled call is [response.data.data],
    [None] when the envelope carries no array there (mapping over it throws). *)
Definition getImages (host : string → AxiosOutcome (option (list (gmap string jsval))))
  : HttpResponse * list string :=
  let url := IMGUR_ACCOUNT_IMAGES_ENDPOINT in
  (match host url with
   | Fulfilled _ (Some images) =>
       match mapM toThumbnail images with
       | Some allImagesData => {| code := 200; body := JsonList allImagesData |}
       | None => {| code := 500; body := Text "Failed to fetch images from Imgur." |}
       end
   | _ => {| code := 500; body := Text "Failed to fetch images from Imgur." |}
   end, [url]).

(** [`${IMGUR_IMAGE_ENDPOINT}/${req.params.imageid}`] *)
Definition image_url (imageid : string) : string :=
  IMGUR_IMAGE_ENDPOINT +:+ "/" +:+ imageid.

(** The [catch] block shared by the two single-image handlers. *)
Definition image_failure (fallback : string) (e : Thrown) : HttpResponse :=
  if bool_decide (error_status e = Some 404) then
    {| code := 404; body := Text "Image not found." |}
  else
    {| code := 500; body := Text fallback |}.

(** What a fulfilled fetch of one image carries, as [image.data.data] reads
    it: [response.data] may be nullish, and then the read throws; otherwise
    [response.data.data] is an image or undefined. *)
Inductive ImagePayload :=
| NoEnvelope
| Envelope (data : option (gmap string jsval)).

(** GET /image/:imageid.  [res.status(200).send(undefined)] answers 200 with
    an empty body. *)
Definition getImage (host : string → AxiosOutcome ImagePayload)
    (imageid : string) : HttpResponse * list string :=
  let url := image_url imageid in
  (match host url with
   | Fulfilled _ (Envelope (Some image)) => {| code := 200; body := Json image |}
   | Fulfilled _ (Envelope None) => {| code := 200; body := Empty |}
   | Fulfilled _ NoEnvelope =>
       (* reading [image.data.data] threw a TypeError: an error without a
          response *)
       image_failure "Failed to fetch image from Imgur." (ThrowError None None)
   | Rejected e => image_failure "Failed to fetch image from Imgur." e
   end, [url]).

(** DELETE /image/:imageid *)
Definition deleteImage (host : string → AxiosOutcome unit)
    (imageid : string) : HttpResponse * list string :=
  let url := image_url imageid in
  (match host url with
   | Fulfilled _ _ => {| code := 200; body := Text "success" |}
   | Rejected e => image_failure "Failed to delete image from Imgur." e
   end, [url]).

End Router.

(** ** The upload console *)

Module UploadConsole.
Import JsString.

Definition MAX_FILE_COUNT : nat := 20.
Definition MAX_FILE_SIZE : Z := 20 * 1024 * 1024.
Definition NEW_NAME_MAX_LENGTH : nat := 20.

(** [NEW_NAME_REGEX.test(s)] for [/^[a-zA-Z0-9]{1,20}$/]. *)
Definition NEW_NAME_REGEX_test (s : string) : bool :=
  let n := String.length s in
  ((1 <=? n) && (n <=? 20))%nat && all_chars is_alnum s.

Definition API_ENDPOINT_BASE : string := "http://localhost:9001".
Definition IMAGES_ENDPOINT_SUFFIX : string := "/images".

(** A browser [File]: immutable, so it is kept by value. *)
Record File := { name : string; type : string; size : Z }.

(** An entry of [selectedFiles]: a mutable JavaScript object. *)
Record FileData := {
  id : string;
  file : File;
  uploaded : bool;
  uploadFailed : bool;
}.

Abbreviation loc := nat.

(** The component: the object store, its allocation pointer, and the three
    pieces of React state.  [selectedFiles] holds references. *)
Record Component := {
  objects : gmap loc FileData;
  next_loc : loc;
  selectedFiles : list loc;
  isUploading : bool;
  uploadProgressCount : Z;
}.

Definition initial : Component :=
  {| objects := ∅; next_loc := 0%nat; selectedFiles := [];
     isUploading := false; uploadProgressCount := 0 |}.

Inductive Effect :=
| Prompt
| Alert (msg : string)
| Fetch (url : string) (payload : option File)
| ConsoleError
| OnUploadSuccess
| Uncaught (what : string).

Inductive FetchResult :=
| Resolved (ok : bool)
| Failed.

Definition setObjects (h : gmap loc FileData) (c : Component) : Component :=
  {| objects := h; next_loc := next_loc c; selectedFiles := selectedFiles c;
     isUploading := isUploading c; uploadProgressCount := uploadProgressCount c |}.

Definition setSelectedFiles (l : list loc) (c : Component) : Component :=
  {| objects := objects c; next_loc := next_loc c; selectedFiles := l;
     isUploading := isUploading c; uploadProgressCount := uploadProgressCount c |}.

Definition setIsUploading (b : bool) (c : Component) : Component :=
  {| objects := objects c; next_loc := next_loc c; selectedFiles := selectedFiles c;
     isUploading := b; uploadProgressCount := uploadProgressCount c |}.

(** Reading a boolean property through a reference; a missing property is
    falsy. *)
Definition flag (p : FileData → bool) (h : gmap loc FileData) (l : loc) : bool :=
  from_option p false (h !! l).

Definition has_id (h : gmap loc FileData) (i : string) (l : loc) : Prop :=
  id <$> h !! l = Some i.

#[global] Instance has_id_dec h i l : Decision (has_id h i l).
Proof. unfold has_id. apply _. Defined.

Definition write_uploaded (v : bool) (d : FileData) : FileData :=
  {| id := id d; file := file d; uploaded := v; uploadFailed := uploadFailed d |}.

Definition write_uploadFailed (v : bool) (d : FileData) : FileData :=
  {| id := id d; file := file d; uploaded := uploaded d; uploadFailed := v |}.

(** [new File([f], newFileName, { type: f.type })] *)
Definition renamed_file (newFileName : string) (f : File) : File :=
  {| name := newFileName; type := type f; size := size f |}.

(** [{ ...d, file: newFile }] *)
Definition with_file (newFile : File) (d : FileData) : FileData :=
  {| id := id d; file := newFile; uploaded := uploaded d;
     uploadFailed := uploadFailed d |}.

(** Allocating the objects [ds] at consecutive references from [n] on. *)
Fixpoint alloc_list (n : loc) (ds : list FileData) (h : gmap loc FileData)
  : gmap loc FileData :=
  match ds with
  | [] => h
  | d :: ds' => alloc_list (S n) ds' (<[n := d]> h)
  end.

Definition nl : string := String (ascii_of_nat 10) EmptyString.

Fixpoint join (sep : string) (l : list string) : string :=
  match l with
  | [] => EmptyString
  | [x] => x
  | x :: rest => x +:+ sep +:+ join sep rest
  end.

(** [(MAX_FILE_SIZE / 1024 / 1024).toFixed(2)] *)
Definition limit_text : string := "20.00".

Definition too_large_text (invalidFileNames : list string) (selected : nat) : string :=
  "The following file"
  +:+ (if (1 <? length invalidFileNames)%nat then "s are" else " is")
  +:+ " too large:" +:+ nl +:+ nl +:+ join ", " invalidFileNames +:+ "."
  +:+ nl +:+ nl +:+ "The limit is " +:+ limit_text +:+ " MB."
  +:+ (if (length invalidFileNames <? selected)%nat
       then " The remaining files have been added." else EmptyString).

(** [handleFileChange]: [files] is [event.target.files] and [uuidv4 k] the
    identifier drawn for the [k]-th file that is kept. *)
Definition handleFileChange (uuidv4 : nat → string) (files : list File)
    (c : Component) : Component * list Effect :=
  if (MAX_FILE_COUNT <? length files + length (selectedFiles c))%nat then
    (c, [Alert "You can only upload a total of 20 files at once."])
  else
    let invalidFileNames := name <$> filter (λ f, MAX_FILE_SIZE < size f) files in
    let validFiles := filter (λ f, ¬ MAX_FILE_SIZE < size f) files in
    let alerts :=
      if (0 <? length invalidFileNames)%nat
      then [Alert (too_large_text invalidFileNames (length files))] else [] in
    let entries :=
      imap (λ k f, {| id := uuidv4 k; file := f; uploaded := false;
                      uploadFailed := false |}) validFiles in
    ({| objects := alloc_list (next_loc c) entries (objects c);
        next_loc := (next_loc c + length entries)%nat;
        selectedFiles := selectedFiles c ++ seq (next_loc c) (length entries);
        isUploading := isUploading c;
        uploadProgressCount := uploadProgressCount c |}, alerts).

(** [handleReset] *)
Definition handleReset (c : Component) : Component * list Effect :=
  (setSelectedFiles [] c, []).

(** [handleDelete] *)
Definition handleDelete (i : string) (c : Component) : Component * list Effect :=
  (setSelectedFiles (filter (λ l, ¬ has_id (objects c) i l) (selectedFiles c)) c, []).

(** The [map] callback of [handleRename] over the previous files: matching
    entries are replaced by fresh objects, the others are kept as they are. *)
Fixpoint rename_entries (i newName fileExtension : string) (prevFiles : list loc)
    (h : gmap loc FileData) (n : loc) : list loc * gmap loc FileData * loc :=
  match prevFiles with
  | [] => ([], h, n)
  | l :: rest =>
      match h !! l with
      | Some d =>
          if String.eqb (id d) i then
            let newFileName := newName +:+ "." +:+ fileExtension in
            let d' := with_file (renamed_file newFileName (file d)) d in
            let '(ls, h', n') :=
              rename_entries i newName fileExtension rest (<[n := d']> h) (S n) in
            (n :: ls, h', n')
          else
            let '(ls, h', n') := rename_entries i newName fileExtension rest h n in
            (l :: ls, h', n')
      | None =>
          let '(ls, h', n') := rename_entries i newName fileExtension rest h n in
          (l :: ls, h', n')
      end
  end.

Definition EMPTY_NAME_MESSAGE : string :=
  "You must enter a name for the file. Please try again.".
Definition INVALID_NAME_MESSAGE : string :=
  "Names must be alphanumeric and under 20 characters. Do not include the file extension.".

(** [handleRename]: [newName] is what [prompt] returned ([None] when the
    dialog is dismissed). *)
Definition handleRename (i : string) (newName : option string) (c : Component)
  : Component * list Effect :=
  match list_find (has_id (objects c) i) (selectedFiles c) with
  | None => (c, [Prompt; Uncaught "TypeError"])
  | Some (_, l) =>
      let fileExtension :=
        default EmptyString
          (pop (split (from_option (λ d, name (file d)) EmptyString (objects c !! l)))) in
      match newName with
      | None | Some EmptyString => (c, [Prompt; Alert EMPTY_NAME_MESSAGE])
      | Some newName =>
          if negb (NEW_NAME_REGEX_test newName) then
            (c, [Prompt; Alert INVALID_NAME_MESSAGE])
          else
            let '(ls, h, n) :=
              rename_entries i newName fileExtension (selectedFiles c)
                (objects c) (next_loc c) in
            ({| objects := h; next_loc := n; selectedFiles := ls;
                isUploading := isUploading c;
                uploadProgressCount := uploadProgressCount c |}, [Prompt])
      end
  end.

(** A submission in flight: the component, what it has done to the outside
    world, and the successive values given to the progress counter. *)
Record Run := {
  comp : Component;
  effects : list Effect;
  progress : list Z;
}.

Definition emit (es : list Effect) (r : Run) : Run :=
  {| comp := comp r; effects := effects r ++ es; progress := progress r |}.

Definition update (f : Component → Component) (r : Run) : Run :=
  {| comp := f (comp r); effects := effects r; progress := progress r |}.

(** [setUploadProgressCount] with an updater function. *)
Definition setUploadProgressCount (f : Z → Z) (r : Run) : Run :=
  let v := f (uploadProgressCount (comp r)) in
  {| comp :=
       {| objects := objects (comp r); next_loc := next_loc (comp r);
          selectedFiles := selectedFiles (comp r);
          isUploading := isUploading (comp r); uploadProgressCount := v |};
     effects := effects r;
     progress := progress r ++ [v] |}.

(** The part of the upload callback that runs when the request of the file
    at position [k] settles with [res k]. *)
Definition settle (files : list loc) (res : nat → FetchResult) (r : Run) (k : nat) : Run :=
  match files !! k with
  | None => r
  | Some fileData =>
      match res k with
      | Resolved ok =>
          setUploadProgressCount (λ prevCount, prevCount - 1)
            (update (λ c, setObjects (alter (write_uploaded ok) fileData (objects c)) c) r)
      | Failed =>
          setUploadProgressCount (λ prevCount, prevCount - 1) (emit [ConsoleError] r)
      end
  end.

Definition FAILED_MESSAGE : string :=
  "Some files failed to upload. They have been retained in your selection.".

(** [handleSubmit] up to the [await]: the counter is set, the controls are
    disabled and every request is issued. *)
Definition startUpload (c : Component) : Run :=
  let files := selectedFiles c in
  let r := {| comp := c; effects := []; progress := [] |} in
  let r := setUploadProgressCount (λ _, Z.of_nat (length files)) r in
  let r := update (setIsUploading true) r in
  emit ((λ l, Fetch (API_ENDPOINT_BASE +:+ IMAGES_ENDPOINT_SUFFIX)
                (file <$> objects c !! l)) <$> files) r.

(** [handleSubmit] after the [await]; [files] is the array the handler
    closed over. *)
Definition reconcile (files : list loc) (r : Run) : Run :=
  let r :=
    if existsb (flag uploaded (objects (comp r))) files
    then emit [OnUploadSuccess] r else r in
  let filesToRetain :=
    filter (λ l, flag uploaded (objects (comp r)) l = false) files in
  let r :=
    update (λ c, setObjects
                   (foldl (λ h l, alter (write_uploadFailed true) l h)
                      (objects c) filesToRetain) c) r in
  let r := update (setSelectedFiles filesToRetain) r in
  let r :=
    if existsb (flag uploadFailed (objects (comp r))) files
    then emit [Alert FAILED_MESSAGE] r else r in
  update (setIsUploading false) r.

(** [handleSubmit].  The requests are all issued before any of them settles;
    [order] lists the positions in the order in which they settle. *)
Definition handleSubmit (res : nat → FetchResult) (order : list nat) (c : Component) : Run :=
  let files := selectedFiles c in
  reconcile files (foldl (settle files res) (startUpload c) order).

(** User and network events, and the states they lead to. *)
Inductive Event :=
| FileChange (uuidv4 : nat → string) (files : list File)
| Submit (res : nat → FetchResult) (order : list nat)
| Reset
| Delete (i : string)
| Rename (i : string) (newName : option string).

Definition dispatch (e : Event) (c : Component) : Component :=
  match e with
  | FileChange uuidv4 files => fst (handleFileChange uuidv4 files c)
  | Submit res order => comp (handleSubmit res order c)
  | Reset => fst (handleReset c)
  | Delete i => fst (handleDelete i c)
  | Rename i newName => fst (handleRename i newName c)
  end.

(** Every request of a submission settles exactly once, in any order. *)
Definition settles_each_once (c : Component) (order : list nat) : Prop :=
  order ≡ₚ seq 0 (length (selectedFiles c)).

#[global] Instance settles_each_once_dec c order :
  Decision (settles_each_once c order).
Proof. unfold settles_each_once. apply _. Defined.

Definition admissible (e : Event) (c : Component) : Prop :=
  match e with
  | Submit _ order => settles_each_once c order
  | _ => True
  end.

Definition is_submit (e : Event) : bool :=
  match e with Submit _ _ => true | _ => false end.

(** [reachable_by evs c]: the component is in state [c] after the events
    [evs], the most recent one first. *)
Inductive reachable_by : list Event → Component → Prop :=
| reach_initial : reachable_by [] initial
| reach_event e evs c :
    reachable_by evs c → admissible e c → reachable_by (e :: evs) (dispatch e c).

Definition reachable (c : Component) : Prop := ∃ evs, reachable_by evs c.

(** The request of position [k] succeeded. *)
Definition succeeded (res : nat → FetchResult) (k : nat) : bool :=
  match res k with Resolved true => true | _ => false end.

(** Every selected reference points to an object whose two flags satisfy [P]. *)
Definition selected_flags (P : bool → bool → Prop) (c : Component) : Prop :=
  ∀ l, l ∈ selectedFiles c →
       ∃ d, objects c !! l = Some d ∧ P (uploaded d) (uploadFailed d).

(** What holds of the component whenever it is idle: the selection holds
    distinct references to allocated objects, none of them marked uploaded,
    and the allocation pointer is above every object. *)
Record wf (c : Component) : Prop := {
  wf_nodup : NoDup (selectedFiles c);
  wf_pending : selected_flags (λ up _, up = false) c;
  wf_below : ∀ l, is_Some (objects c !! l) → (l < next_loc c)%nat;
  wf_idle : isUploading c = false;
}.

#[global] Instance File_eq_dec : EqDecision File.
Proof. solve_decision. Defined.

#[global] Instance Effect_eq_dec : EqDecision Effect.
Proof. solve_decision. Defined.

End UploadConsole.

(** ** Sample inputs, after the repository's tests *)

Module Samples.
Import Router UploadConsole.

Definition jpg (n : string) : MulterFile :=
  {| originalname := n; mimetype := "image/jpeg"; buffer := "file content" |}.
Definition txt (n : string) : MulterFile :=
  {| originalname := n; mimetype := "text/plain"; buffer := "file content" |}.

Definition jpg_image : gmap string jsval :=
  {[ "id" := JStr "abc"; "title" := JStr "Test Image";
     "link" := JStr "https://host/abc.jpg"; "views" := JNum 100 ]}.

Definition mp4_image : gmap string jsval :=
  {[ "id" := JStr "abc"; "title" := JStr "Clip";
     "link" := JStr "https://i.imgur.com/abc.mp4"; "views" := JNum 7 ]}.

Definition photo (n : string) : File :=
  {| name := n; type := "image/jpeg"; size := 12 |}.

Definition uuids (k : nat) : string :=
  match k with
  | O => "id-a"
  | S O => "id-b"
  | _ => "id-c"
  end.

(** Three files selected in a fresh console. *)
Definition three_selected : Component :=
  dispatch (FileChange uuids [photo "one.jpg"; photo "README"; photo "three.jpg"])
    initial.

(** The second request is refused, the third one throws, the first succeeds. *)
Definition mixed (k : nat) : FetchResult :=
  match k with
  | O => Resolved true
  | S O => Resolved false
  | _ => Failed
  end.

(** On a second attempt every request succeeds. *)
Definition all_ok (k : nat) : FetchResult := Resolved true.

(** On a second attempt the first request succeeds and the other throws. *)
Definition retry (k : nat) : FetchResult :=
  match k with
  | O => Resolved true
  | _ => Failed
  end.

Definition after_first : Component :=
  dispatch (Submit mixed [2; 0; 1]%nat) three_selected.

Definition after_retry : Component :=
  dispatch (Submit retry [1; 0]%nat) after_first.


End Samples.

(** ** What the upload console renders *)

Module ConsoleView.
Import JsString UploadConsole.

(** The objects the list is rendered from:
    [selectedFiles.map(({ id, file, uploadFailed, uploaded }) => ...)]. *)
Definition entries (c : Component) : list FileData :=
  omap (λ l, objects c !! l) (selectedFiles c).

(** [let textColorClass] of the [map] callback. *)
Definition textColorClass (isUploading uploadFailed : bool) : string :=
  if uploadFailed && negb isUploading then "text-red-500"
  else if isUploading then "text-yellow-500"
  else "text-gray-500".

(** [file.name.slice(0, 40) + (file.name.length > 40 ? "..." : "")] *)
Definition shown_name (n : CodeUnits) : CodeUnits :=
  js_concat (slice_to 40 n)
    (if (40 <? js_length n)%nat then code_units "..." else code_units EmptyString).

(** The colour of every listed file, in order. *)
Definition colours (c : Component) : list string :=
  (λ d, textColorClass (isUploading c) (uploadFailed d)) <$> entries c.

(** Every selected reference points to an object that satisfies [P]. *)
Definition selected_sat (P : FileData → Prop) (c : Component) : Prop :=
  ∀ l, l ∈ selectedFiles c → ∃ d, objects c !! l = Some d ∧ P d.

(** The entry that [handleFileChange] creates for the [k]-th kept file. *)
Definition new_entry (uuidv4 : nat → string) (k : nat) (f : File) : FileData :=
  {| id := uuidv4 k; file := f; uploaded := false; uploadFailed := false |}.

(** The entry that a rename to [newFileName] makes of [d]. *)
Definition renamed_entry (newFileName : string) (d : FileData) : FileData :=
  with_file (renamed_file newFileName (file d)) d.

End ConsoleView.

(** ** The image grid *)

Module ImageGrid.
Import JsString Router.

(** The three pieces of state of the component. *)
Record Grid := {
  images : list (gmap string jsval);
  isDeleting : bool;
  isError : bool;
}.

Definition empty_grid : Grid :=
  {| images := []; isDeleting := false; isError := false |}.

(** What [fetch] resolves with, as far as the component reads it.  [json]
    is the parsed body, [None] when [response.json()] rejects. *)
Record FetchResponse := {
  ok : bool;
  status : Z;
  json : option (list (gmap string jsval));
}.

Inductive FetchOutcome :=
| Responded (r : FetchResponse)
| NetworkError.

Inductive GridEffect :=
| Request (method url : string)
| GridAlert (msg : string)
| GridConsoleError
| SetRecompute (b : bool).

Definition setImages (l : list (gmap string jsval)) (g : Grid) : Grid :=
  {| images := l; isDeleting := isDeleting g; isError := isError g |}.

Definition setIsDeleting (b : bool) (g : Grid) : Grid :=
  {| images := images g; isDeleting := b; isError := isError g |}.

Definition setIsError (b : bool) (g : Grid) : Grid :=
  {| images := images g; isDeleting := isDeleting g; isError := b |}.

(** The effect hook: [fetchImages] runs when [recompute] is set. *)
Definition fetchImages (recompute : bool) (out : FetchOutcome) (g : Grid)
  : Grid * list GridEffect :=
  if recompute then
    let request :=
      Request "GET" (UploadConsole.API_ENDPOINT_BASE
                     +:+ UploadConsole.IMAGES_ENDPOINT_SUFFIX) in
    match out with
    | Responded response =>
        if negb (ok response) then (setIsError true g, [request])
        else
          match json response with
          | Some images => (setImages images g, [request; SetRecompute false])
          | None => (setIsError true g, [request; GridConsoleError])
          end
    | NetworkError => (setIsError true g, [request; GridConsoleError])
    end
  else (g, []).

Definition NOT_FOUND_ALERT : string :=
  "Image not found. It may have already been deleted.".
Definition DELETE_FAILED_ALERT : string :=
  "Failed to delete image. Please try again later.".

(** [image.id !== imageId] for a string [imageId]. *)
Definition other_id (imageId : string) (image : gmap string jsval) : Prop :=
  image !! "id" ≠ Some (JStr imageId).

#[global] Instance jsval_eq_dec : EqDecision jsval.
Proof. solve_decision. Defined.

#[global] Instance other_id_dec imageId image : Decision (other_id imageId image).
Proof. unfold other_id. apply _. Defined.

(** [handleDelete].  [IMAGE_ENDPOINT_SUFFIX] is a constant of the
    configuration module. *)
Definition handleDelete (IMAGE_ENDPOINT_SUFFIX : string) (imageId : string)
    (out : FetchOutcome) (g : Grid) : Grid * list GridEffect :=
  let g := setIsDeleting true g in
  let request :=
    Request "DELETE" (UploadConsole.API_ENDPOINT_BASE
                      +:+ IMAGE_ENDPOINT_SUFFIX +:+ imageId) in
  let '(g, effects) :=
    match out with
    | Responded response =>
        if ok response then
          (setImages (filter (other_id imageId) (images g)) g, [request])
        else if status response =? 404 then
          (g, [request; GridAlert NOT_FOUND_ALERT])
        else
          (g, [request; GridAlert DELETE_FAILED_ALERT])
    | NetworkError =>
        (g, [request; GridConsoleError; GridAlert DELETE_FAILED_ALERT])
    end in
  (setIsDeleting false g, effects).

(** The card title:
    [image.title.length > 30 ? `${image.title.slice(0, 30)}...` : image.title]. *)
Definition shown_title (title : CodeUnits) : CodeUnits :=
  if (30 <? js_length title)%nat
  then js_concat (slice_to 30 title) (code_units "...")
  else title.

(** What happens to a mounted grid. *)
Inductive GridEvent :=
| Load (recompute : bool) (out : FetchOutcome)
| DeleteClicked (suffix imageId : string) (out : FetchOutcome).

Definition grid_step (e : GridEvent) (g : Grid) : Grid :=
  match e with
  | Load recompute out => fst (fetchImages recompute out g)
  | DeleteClicked suffix imageId out => fst (handleDelete suffix imageId out g)
  end.

End ImageGrid.

(** ** The application shell *)

Module App.
Import UploadConsole.

(** [handleUploadSuccess]: [setRecompute((prev) => !prev)]. *)
Definition handleUploadSuccess (recompute : bool) : bool := negb recompute.

(** The [recompute] flag after the console has run a handler with the
    effects [es]: every call of [onUploadSuccess] goes through
    [handleUploadSuccess]. *)
Definition recompute_after (es : list Effect) (recompute : bool) : bool :=
  foldl (λ r e, match e with
                | OnUploadSuccess => handleUploadSuccess r
                | _ => r
                end) recompute es.

(** The flag after the grid has run with the effects [es]: [setRecompute]
    is the setter of the shell's state. *)
Definition recompute_after_grid (es : list ImageGrid.GridEffect) (recompute : bool)
  : bool :=
  foldl (λ r e, match e with
                | ImageGrid.SetRecompute b => b
                | _ => r
                end) recompute es.

End App.

(** ** The status an upload records *)

Module RouterView.
Import Router.

(** The status that the upload callback records for a file whose call was
    made: [response.status], or [error?.response?.status ?? 500]. *)
Definition recorded_status (r : AxiosOutcome unit) : Z :=
  match r with
  | Fulfilled s _ => s
  | Rejected e => default 500 (error_status e)
  end.

End RouterView.

(** ** Further sample inputs *)

Module MoreSamples.
Import Router UploadConsole.

(** One byte above the limit. *)
Definition huge (n : string) : File :=
  {| name := n; type := "image/png"; size := 20 * 1024 * 1024 + 1 |}.

(** One file more than may be selected. *)
Definition crowd : list File := replicate 21 (Samples.photo "p.jpg").

Definition grid_image (i title : string) : gmap string jsval :=
  {[ "id" := JStr i; "title" := JStr title;
     "link" := JStr "https://i.imgur.com/testm.jpg" ]}.

Definition two_images : ImageGrid.Grid :=
  {| ImageGrid.images := [grid_image "1" "Test Image"; grid_image "2" "Other"];
     ImageGrid.isDeleting := false;
     ImageGrid.isError := false |}.

(** A picture of a type the host does not take. *)
Definition webp (n : string) : File :=
  {| name := n; type := "image/webp"; size := 5 |}.

Definition two_types : Component :=
  dispatch (FileChange Samples.uuids [Samples.photo "a.jpg"; webp "b.webp"]) initial.

(** What multer makes of the two files. *)
Definition wire (k : nat) : MulterFile :=
  match k with
  | O => {| originalname := "a.jpg"; mimetype := "image/jpeg"; buffer := "jpeg bytes" |}
  | _ => {| originalname := "b.webp"; mimetype := "image/webp"; buffer := "webp bytes" |}
  end.

(** The host accepts whatever reaches it. *)
Definition willing (k i : nat) : AxiosOutcome unit := Fulfilled 200 ().

(** What the console receives for the two files. *)
Definition received (k : nat) : FetchResult :=
  match k with
  | O => Resolved true
  | _ => Resolved false
  end.

Definition answered (is_ok : bool) (st : Z) : ImageGrid.FetchOutcome :=
  ImageGrid.Responded
    {| ImageGrid.ok := is_ok; ImageGrid.status := st; ImageGrid.json := None |}.

End MoreSamples.

(** ** Facts about the string helpers *)

Module JsStringFacts.
Import JsString.

Lemma is_lower_dot : is_lower "."%char = false.
Proof. reflexivity. Qed.

Lemma all_lower_app (a b : string) :
  all_chars is_lower (a +:+ b) = all_chars is_lower a && all_chars is_lower b.
Proof.
  induction a as [|c a IH]; simpl; [done|].
  by rewrite IH, andb_assoc.
Qed.

(** No match can start inside [base] when a dot follows: the letters of the
    extension would have to run across that dot. *)
Lemma ext_at_crossing (c : ascii) (a ext : string) :
  ext_at (String c (a +:+ String "."%char ext)) = false.
Proof.
  unfold ext_at. rewrite all_lower_app.
  change (all_chars is_lower (String "."%char ext)) with false.
  by rewrite !andb_false_r.
Qed.

Lemma replace_ext_suffix (token base ext : string) :
  ext ≠ EmptyString → all_chars is_lower ext = true →
  replace_ext token (base +:+ String "."%char ext)
  = base +:+ token +:+ String "."%char ext.
Proof.
  intros Hne Hlow. induction base as [|c base IH].
  - simpl. destruct ext as [|e ext]; [done|].
    simpl in Hlow. simpl. by rewrite Hlow.
  - change (String c base +:+ String "."%char ext)
      with (String c (base +:+ String "."%char ext)).
    cbn [replace_ext]. rewrite ext_at_crossing. by rewrite IH.
Qed.

Lemma ext_at_has_lower_ext (s : string) : ext_at s = true → has_lower_ext s.
Proof.
  destruct s as [|c rest]; [done|]. simpl.
  intros H. apply andb_prop in H as [H Hlow]. apply andb_prop in H as [Hc Hne].
  apply Ascii.eqb_eq in Hc as ->.
  exists EmptyString, rest. split; [done|]. split; [|done].
  by destruct rest.
Qed.

Lemma replace_ext_unmatched (token s : string) :
  ¬ has_lower_ext s → replace_ext token s = s.
Proof.
  induction s as [|c s IH]; intros Hno; [done|].
  cbn [replace_ext]. destruct (ext_at (String c s)) eqn:E.
  - exfalso. by apply Hno, ext_at_has_lower_ext.
  - f_equal. apply IH. intros (base & ext & -> & Hne & Hlow).
    apply Hno. by exists (String c base), ext.
Qed.

Lemma split_dot_dotless (s : string) :
  has_dot s = false → split_dot s = (s, []).
Proof.
  induction s as [|c s IH]; simpl; [done|].
  intros H. apply orb_false_elim in H as [Hc Hs].
  by rewrite (IH Hs), Hc.
Qed.

(** For a name without a dot, [name.split(".").pop()] is the whole name. *)
Lemma pop_split_dotless (s : string) :
  has_dot s = false → pop (split s) = Some s.
Proof. intros H. unfold split, pop. by rewrite split_dot_dotless. Qed.

Lemma pop_split_is_Some (s : string) : is_Some (pop (split s)).
Proof.
  unfold split, pop. destruct (split_dot s) as [piece more].
  generalize piece. induction more as [|m more IH]; intros p; [by eexists|].
  change (last (p :: m :: more)) with (last (m :: more)). apply IH.
Qed.

Lemma split_dot_last_dot (a b : string) :
  has_dot b = false →
  ∃ piece more, split_dot (a +:+ String "."%char b) = (piece, more)
                ∧ last more = Some b.
Proof.
  intros Hb. induction a as [|c a (piece & more & IH & Hlast)].
  - exists EmptyString, [b]. simpl. by rewrite split_dot_dotless.
  - change (String c a +:+ String "."%char b)
      with (String c (a +:+ String "."%char b)).
    cbn [split_dot]. rewrite IH.
    destruct (Ascii.eqb c "."%char); eexists _, _; (split; [done|]); [|done].
    destruct more; [done|]. exact Hlast.
Qed.

(** Otherwise it is what follows the last dot. *)
Lemma pop_split_last_dot (a b : string) :
  has_dot b = false → pop (split (a +:+ String "."%char b)) = Some b.
Proof.
  intros Hb. unfold split, pop.
  destruct (split_dot_last_dot a b Hb) as (piece & more & -> & Hlast).
  destruct more; [done|]. exact Hlast.
Qed.

Example thumbnail_link :
  replace_ext "m" "https://host/abc.jpg" = "https://host/abcm.jpg".
Proof. reflexivity. Qed.

Example thumbnail_link_base :
  replace_ext "m" "https://i.imgur.com/" = "https://i.imgur.com/".
Proof. reflexivity. Qed.

Example extension_of_jpg : pop (split "test-file.jpg") = Some "jpg".
Proof. reflexivity. Qed.

Example extension_of_dotless : pop (split "README") = Some "README".
Proof. reflexivity. Qed.

End JsStringFacts.

(** ** The router: what the handlers answer *)

Module RouterSpec.
Import JsString Router.

(** Each file of a batch gets the outcome of its own run of the callback. *)
Lemma post_trackers_lookup net (fs : list MulterFile) (i : nat) :
  post_trackers (postImages net (Some fs)) !! i
  = (λ f, fst (uploadFile (net i) f)) <$> fs !! i.
Proof.
  destruct fs as [|f0 fs]; [done|].
  unfold postImages. cbn [post_trackers].
  rewrite list_lookup_fmap, list_lookup_imap.
  by destruct ((f0 :: fs) !! i).
Qed.

Lemma post_trackers_length net (fs : list MulterFile) :
  length (post_trackers (postImages net (Some fs))) = length fs.
Proof.
  destruct fs as [|f0 fs]; [done|].
  unfold postImages. cbn [post_trackers].
  by rewrite length_fmap, length_imap.
Qed.

Lemma upload_calls_filter (g : nat → AxiosOutcome unit) (fs : list MulterFile) :
  concat (snd <$> imap (λ i f, uploadFile (g i) f) fs)
  = form_of <$> filter (λ f, allowed (mimetype f) = true) fs.
Proof.
  revert g. induction fs as [|f fs IH]; intros g; [done|].
  rewrite imap_cons, fmap_cons. cbn [concat].
  change (imap ((λ i f, uploadFile (g i) f) ∘ S) fs)
    with (imap (λ i f, uploadFile ((g ∘ S) i) f) fs).
  rewrite (IH (g ∘ S)), filter_cons.
  unfold uploadFile at 1. case_decide as Hd.
  - rewrite Hd. simpl. by destruct (g 0%nat).
  - apply not_true_is_false in Hd. by rewrite Hd.
Qed.

Lemma aggregate_cases (responses : list ResponseTracker) :
  (Forall (λ o, success o = true) responses
   ∧ aggregate responses = {| code := 200; body := Text "success" |})
  ∨ (¬ Forall (λ o, success o = true) responses
     ∧ Exists (λ o, status o = Some 500) responses
     ∧ aggregate responses
       = {| code := 500; body := Text "Failed to upload images to Imgur." |})
  ∨ (¬ Forall (λ o, success o = true) responses
     ∧ ¬ Exists (λ o, status o = Some 500) responses
     ∧ aggregate responses = {| code := 400; body := Text SOME_FAILED_MESSAGE |}).
Proof.
  unfold aggregate.
  destruct (forallb success responses) eqn:Eall.
  { left. split; [|done]. apply Forall_forall. intros o Ho.
    apply list_elem_of_In in Ho. by apply (proj1 (forallb_forall _ _) Eall). }
  right.
  assert (¬ Forall (λ o, success o = true) responses) as Hnot.
  { intros HF. rewrite Forall_forall in HF.
    assert (forallb success responses = true); [|congruence].
    apply forallb_forall. intros o Ho. apply HF. by apply list_elem_of_In. }
  destruct (existsb _ responses) eqn:Eex.
  - left. split; [done|]. split; [|done].
    apply existsb_exists in Eex as (o & Ho & Hs).
    apply Exists_exists. exists o. split; [by apply list_elem_of_In|].
    by apply bool_decide_eq_true in Hs.
  - right. split; [done|]. split; [|done].
    intros HE. apply Exists_exists in HE as (o & Ho & Hs).
    assert (existsb (λ r, bool_decide (status r = Some 500)) responses = true);
      [|congruence].
    apply existsb_exists. exists o. split; [by apply list_elem_of_In|].
    by apply bool_decide_eq_true.
Qed.

(** C1. Every batch with at least one file is answered by the three-way
    policy over its per-file outcomes (one per file): 200 with the body
    "success" when every outcome is a success; otherwise 500 when some
    outcome recorded the status 500; otherwise 400 with the message asking
    to check size and type. *)
Theorem post_images_aggregate net (f : MulterFile) (fs : list MulterFile) :
  let r := postImages net (Some (f :: fs)) in
  let outcomes := post_trackers r in
  length outcomes = length (f :: fs)
  ∧ (Forall (λ o, success o = true) outcomes →
     post_response r = {| code := 200; body := Text "success" |})
  ∧ (¬ Forall (λ o, success o = true) outcomes →
     Exists (λ o, status o = Some 500) outcomes →
     code (post_response r) = 500)
  ∧ (¬ Forall (λ o, success o = true) outcomes →
     ¬ Exists (λ o, status o = Some 500) outcomes →
     post_response r = {| code := 400; body := Text SOME_FAILED_MESSAGE |}).
Proof.
  intros r outcomes. split; [apply post_trackers_length|].
  assert (post_response r = aggregate outcomes) as -> by done.
  destruct (aggregate_cases outcomes)
    as [(HF & ->) | [(HnF & HE & ->) | (HnF & HnE & ->)]];
    repeat split; intros; done.
Qed.

Lemma post_images_aggregate_witness :
  post_response
    (postImages (λ _, Fulfilled 200 ()) (Some [Samples.jpg "test-file.jpg"]))
  = {| code := 200; body := Text "success" |}
  ∧ code (post_response
            (postImages (λ _, Rejected (ThrowError (Some "Network Error") None))
               (Some [Samples.jpg "test-file.jpg"]))) = 500
  ∧ post_response
      (postImages (λ _, Fulfilled 200 ()) (Some [Samples.txt "test-file.txt"]))
    = {| code := 400; body := Text SOME_FAILED_MESSAGE |}.
Proof.
  split; [|split].
  - apply (post_images_aggregate (λ _, Fulfilled 200 ())
             (Samples.jpg "test-file.jpg") []).
    repeat constructor.
  - apply (post_images_aggregate
             (λ _, Rejected (ThrowError (Some "Network Error") None))
             (Samples.jpg "test-file.jpg") []).
    + intros H. inversion H. discriminate.
    + constructor. reflexivity.
  - apply (post_images_aggregate (λ _, Fulfilled 200 ())
             (Samples.txt "test-file.txt") []).
    + intros H. inversion H. discriminate.
    + intros H. inversion H; subst; [discriminate|]. by inversion H1.
Defined.

(** C4. In a batch, a file whose media type is on the allow-list gets the
    outcome of its own outbound call: when the call returns, the returned
    status is recorded and the outcome is a success exactly for the status
    200; when the call rejects with a response that carries a status, the
    outcome is a failure with that status; when it rejects without one (no
    response, or nothing usable thrown), the outcome is a failure with
    status 500. *)
Theorem post_images_classification net (fs : list MulterFile) (i : nat) (f : MulterFile) :
  fs !! i = Some f → allowed (mimetype f) = true →
  ∃ o, post_trackers (postImages net (Some fs)) !! i = Some o
       ∧ file o = originalname f ∧ typeError o = false
       ∧ match net i with
         | Fulfilled s _ => status o = Some s ∧ (success o = true ↔ s = 200)
         | Rejected e =>
             success o = false
             ∧ match error_status e with
               | Some s => status o = Some s
               | None => status o = Some 500
               end
         end.
Proof.
  intros Hi Hok. rewrite post_trackers_lookup, Hi. simpl.
  eexists. split; [done|]. unfold uploadFile. rewrite Hok. simpl.
  destruct (net i) as [s d|e]; simpl.
  - repeat split; [apply Z.eqb_eq | apply Z.eqb_eq].
  - repeat split. by destruct (error_status e).
Qed.

Lemma post_images_classification_witness :
  ∃ o, post_trackers
         (postImages
            (λ i, match i with
                  | O => Fulfilled 200 ()
                  | S O => Rejected (ThrowError None (Some {| resp_status := Some 429 |}))
                  | _ => Rejected (ThrowError (Some "Network Error") None)
                  end)
            (Some [Samples.jpg "a.jpg"; Samples.jpg "b.jpg"; Samples.jpg "c.jpg"]))
       !! 1%nat = Some o
       ∧ success o = false ∧ status o = Some 429.
Proof.
  destruct (post_images_classification
              (λ i, match i with
                    | O => Fulfilled 200 ()
                    | S O => Rejected (ThrowError None (Some {| resp_status := Some 429 |}))
                    | _ => Rejected (ThrowError (Some "Network Error") None)
                    end)
              [Samples.jpg "a.jpg"; Samples.jpg "b.jpg"; Samples.jpg "c.jpg"]
              1%nat (Samples.jpg "b.jpg") eq_refl eq_refl)
    as (o & Ho & _ & _ & Hs & Hst).
  exists o. repeat split; assumption.
Defined.

(** A returned status other than 200 is recorded, and the outcome is a
    failure. *)
Example returned_201_is_failure :
  fst (uploadFile (Fulfilled 201 ()) (Samples.jpg "a.jpg"))
  = {| file := "a.jpg"; success := false; typeError := false; status := Some 201 |}.
Proof. reflexivity. Qed.

(** C4, as it is worded, fails for a success status other than 200.  The
    call made for an allow-listed file returns 204, a status of the 2xx
    range, which axios fulfils: the status is recorded, yet the outcome is a
    failure, and the batch is answered 400. *)
Lemma returned_204_is_failure :
  allowed (mimetype (Samples.jpg "a.jpg")) = true
  ∧ post_trackers
      (postImages (λ _, Fulfilled 204 ()) (Some [Samples.jpg "a.jpg"]))
    = [{| file := "a.jpg"; success := false; typeError := false;
          status := Some 204 |}]
  ∧ post_response
      (postImages (λ _, Fulfilled 204 ()) (Some [Samples.jpg "a.jpg"]))
    = {| code := 400; body := Text SOME_FAILED_MESSAGE |}.
Proof. split; [|split]; by vm_compute. Qed.

(** C6. The outbound calls of a batch are exactly those of its allow-listed
    files, one each and in order; a file whose media type is not on the list
    gets a synthesized failed outcome (type error set, no status) and no
    call. *)
Theorem post_images_type_gate net (fs : list MulterFile) :
  let r := postImages net (Some fs) in
  post_calls r = form_of <$> filter (λ f, allowed (mimetype f) = true) fs
  ∧ (∀ i f, fs !! i = Some f → allowed (mimetype f) = false →
       post_trackers r !! i
       = Some {| file := originalname f; success := false; typeError := true;
                 status := None |}
       ∧ snd (uploadFile (net i) f) = []).
Proof.
  split.
  - destruct fs as [|f0 fs]; [done|]. apply upload_calls_filter.
  - intros i f Hi Hno. rewrite post_trackers_lookup, Hi. simpl.
    unfold uploadFile. by rewrite Hno.
Qed.

Lemma post_images_type_gate_witness :
  post_calls (postImages (λ _, Fulfilled 200 ())
                (Some [Samples.jpg "a.jpg"; Samples.txt "b.txt"; Samples.jpg "c.jpg"]))
  = [form_of (Samples.jpg "a.jpg"); form_of (Samples.jpg "c.jpg")]
  ∧ post_trackers (postImages (λ _, Fulfilled 200 ())
                     (Some [Samples.jpg "a.jpg"; Samples.txt "b.txt"; Samples.jpg "c.jpg"]))
    !! 1%nat
    = Some {| file := "b.txt"; success := false; typeError := true; status := None |}.
Proof.
  destruct (post_images_type_gate (λ _, Fulfilled 200 ())
              [Samples.jpg "a.jpg"; Samples.txt "b.txt"; Samples.jpg "c.jpg"])
    as [Hcalls Hgate].
  split; [exact Hcalls|].
  exact (proj1 (Hgate 1%nat (Samples.txt "b.txt") eq_refl eq_refl)).
Defined.

(** C7. When the host call of GET /image/:imageid or DELETE /image/:imageid
    fails, a failure carrying the status 404 is answered with 404 and the
    body "Image not found."; every other failure, one without any response
    included, is answered with 500.  A host 404 is therefore never answered
    with 500. *)
Theorem single_image_failure_mapping (imageid : string) (e : Thrown) :
  (∀ host, host (image_url imageid) = Rejected e →
     (error_status e = Some 404 →
        fst (getImage host imageid) = {| code := 404; body := Text "Image not found." |})
     ∧ (error_status e ≠ Some 404 →
        fst (getImage host imageid)
        = {| code := 500; body := Text "Failed to fetch image from Imgur." |})
     ∧ snd (getImage host imageid) = [image_url imageid])
  ∧ (∀ host, host (image_url imageid) = Rejected e →
     (error_status e = Some 404 →
        fst (deleteImage host imageid) = {| code := 404; body := Text "Image not found." |})
     ∧ (error_status e ≠ Some 404 →
        fst (deleteImage host imageid)
        = {| code := 500; body := Text "Failed to delete image from Imgur." |})
     ∧ snd (deleteImage host imageid) = [image_url imageid]).
Proof.
  split; intros host Hhost; unfold getImage, deleteImage; cbn [fst snd];
    rewrite Hhost; unfold image_failure;
    (split; [|split; [|done]]); intros He.
  - by rewrite bool_decide_eq_true_2.
  - by rewrite bool_decide_eq_false_2.
  - by rewrite bool_decide_eq_true_2.
  - by rewrite bool_decide_eq_false_2.
Qed.

Lemma single_image_failure_mapping_witness :
  fst (getImage (λ _, Rejected (ThrowError None (Some {| resp_status := Some 404 |})))
         "imageid")
  = {| code := 404; body := Text "Image not found." |}
  ∧ fst (deleteImage (λ _, Rejected (ThrowError (Some "Network Error") None))
           "imageid")
    = {| code := 500; body := Text "Failed to delete image from Imgur." |}.
Proof.
  split.
  - apply (proj1 (single_image_failure_mapping "imageid"
                    (ThrowError None (Some {| resp_status := Some 404 |})))
             (λ _, Rejected (ThrowError None (Some {| resp_status := Some 404 |})))
             eq_refl).
    reflexivity.
  - apply (proj2 (single_image_failure_mapping "imageid"
                    (ThrowError (Some "Network Error") None))
             (λ _, Rejected (ThrowError (Some "Network Error") None))
             eq_refl).
    discriminate.
Defined.

Lemma toThumbnail_link (image : gmap string jsval) (link : string) :
  image !! "link" = Some (JStr link) →
  toThumbnail image = Some (<["link" := JStr (replace_ext thumbnailSize link)]> image).
Proof. intros H. unfold toThumbnail. by rewrite H. Qed.

Lemma mapM_toThumbnail (images : list (gmap string jsval)) :
  Forall (λ image, ∃ link, image !! "link" = Some (JStr link)) images →
  ∃ out, mapM toThumbnail images = Some out
         ∧ Forall2 (λ image image', toThumbnail image = Some image') images out.
Proof.
  intros Hall.
  assert (is_Some (mapM toThumbnail images)) as [out Hout].
  { apply mapM_is_Some. eapply Forall_impl; [exact Hall|].
    intros image [link Hl]. unfold compose.
    rewrite (toThumbnail_link _ _ Hl). by eexists. }
  exists out. split; [done|]. by apply mapM_Some.
Qed.

(** C8, as the handler has it.  When the host returns a list of images that
    all carry a string link, GET /images answers 200 with one image per
    image of the host, in order.  In each, the token "m" is inserted
    immediately before the final dot when the link ends with a dot followed
    by one or more lowercase letters; any other link is relayed unchanged;
    every other field is relayed unchanged. *)
Theorem list_links_thumbnailed host (st : Z) (images : list (gmap string jsval))
    (i : nat) (image : gmap string jsval) (link : string) :
  host IMGUR_ACCOUNT_IMAGES_ENDPOINT = Fulfilled st (Some images) →
  Forall (λ image, ∃ link, image !! "link" = Some (JStr link)) images →
  images !! i = Some image →
  image !! "link" = Some (JStr link) →
  ∃ out image',
    fst (getImages host) = {| code := 200; body := JsonList out |}
    ∧ length out = length images
    ∧ out !! i = Some image'
    ∧ (∀ k, k ≠ "link" → image' !! k = image !! k)
    ∧ (∀ base ext, link = base +:+ String "."%char ext → ext ≠ EmptyString →
         all_chars is_lower ext = true →
         image' !! "link" = Some (JStr (base +:+ "m" +:+ String "."%char ext)))
    ∧ (¬ has_lower_ext link → image' !! "link" = Some (JStr link)).
Proof.
  intros Hhost Hall Hi Hlink.
  destruct (mapM_toThumbnail images Hall) as (out & Hout & H2).
  destruct (Forall2_lookup_l _ _ _ _ _ H2 Hi) as (image' & Hi' & Himg).
  exists out, image'. unfold getImages. cbn [fst]. rewrite Hhost, Hout.
  split; [done|]. split; [symmetry; by eapply Forall2_length|].
  split; [done|].
  rewrite (toThumbnail_link _ _ Hlink) in Himg. injection Himg as <-.
  split; [|split].
  - intros k Hk. by rewrite lookup_insert_ne.
  - intros base ext -> Hne Hlow. rewrite lookup_insert_eq.
    by rewrite (JsStringFacts.replace_ext_suffix _ _ _ Hne Hlow).
  - intros Hno. rewrite lookup_insert_eq.
    by rewrite (JsStringFacts.replace_ext_unmatched _ _ Hno).
Qed.

Lemma list_links_thumbnailed_witness :
  ∃ out image',
    fst (getImages (λ _, Fulfilled 200 (Some [Samples.jpg_image])))
    = {| code := 200; body := JsonList out |}
    ∧ out !! 0%nat = Some image'
    ∧ image' !! "link" = Some (JStr "https://host/abcm.jpg")
    ∧ image' !! "title" = Some (JStr "Test Image").
Proof.
  destruct (list_links_thumbnailed (λ _, Fulfilled 200 (Some [Samples.jpg_image]))
              200 [Samples.jpg_image] 0%nat Samples.jpg_image "https://host/abc.jpg")
    as (out & image' & Hres & _ & Hout & Hother & Hext & _).
  - reflexivity.
  - constructor; [|constructor]. exists "https://host/abc.jpg". reflexivity.
  - reflexivity.
  - reflexivity.
  - exists out, image'. split; [exact Hres|]. split; [exact Hout|]. split.
    + apply (Hext "https://host/abc" "jpg"); [reflexivity|discriminate|reflexivity].
    + rewrite Hother; [reflexivity|discriminate].
Defined.

(** A link whose extension is not made of lowercase letters only is relayed
    as it is: no size token is inserted before ".mp4". *)
Lemma list_link_mp4_relayed :
  ∃ image',
    fst (getImages (λ _, Fulfilled 200 (Some [Samples.mp4_image])))
    = {| code := 200; body := JsonList [image'] |}
    ∧ image' !! "link" = Some (JStr "https://i.imgur.com/abc.mp4")
    ∧ image' !! "link" ≠ Some (JStr "https://i.imgur.com/abcm.mp4").
Proof.
  exists (<["link" := JStr "https://i.imgur.com/abc.mp4"]> Samples.mp4_image).
  split; [reflexivity|]. rewrite lookup_insert_eq. split; [reflexivity|discriminate].
Qed.

Example list_host_failure :
  fst (getImages (λ _, Rejected (ThrowError (Some "Network Error") None)))
  = {| code := 500; body := Text "Failed to fetch images from Imgur." |}.
Proof. reflexivity. Qed.

Example post_no_files :
  post_response (postImages (λ _, Fulfilled 200 ()) (Some []))
  = {| code := 400;
       body := Text "No files attached or files are incorrectly formatted." |}
  ∧ post_calls (postImages (λ _, Fulfilled 200 ()) None) = [].
Proof. split; reflexivity. Qed.

End RouterSpec.

(** ** The upload console: selection, renaming and submission *)

Module UploadConsoleSpec.
Import JsString UploadConsole.
Local Open Scope nat_scope.
Local Open Scope list_scope.

(** *** The object store *)

Lemma alloc_list_lookup_lt (ds : list FileData) :
  ∀ (n : nat) (h : gmap nat FileData) (l : nat),
    l < n → alloc_list n ds h !! l = h !! l.
Proof.
  induction ds as [|d ds IH]; intros n h l Hl; [done|].
  cbn [alloc_list]. rewrite IH by lia. apply lookup_insert_ne. lia.
Qed.

Lemma alloc_list_lookup_new (ds : list FileData) :
  ∀ (n : nat) (h : gmap nat FileData) (k : nat) (d : FileData),
    ds !! k = Some d → alloc_list n ds h !! (n + k) = Some d.
Proof.
  induction ds as [|d0 ds IH]; intros n h k d Hk; [done|].
  cbn [alloc_list]. destruct k as [|k].
  - injection Hk as ->. rewrite alloc_list_lookup_lt by lia.
    rewrite Nat.add_0_r. apply lookup_insert_eq.
  - replace (n + S k) with (S n + k) by lia. by apply IH.
Qed.

Lemma alloc_list_lookup_ge (ds : list FileData) :
  ∀ (n : nat) (h : gmap nat FileData) (l : nat),
    n + length ds ≤ l → alloc_list n ds h !! l = h !! l.
Proof.
  induction ds as [|d ds IH]; intros n h l Hl; [done|].
  cbn [alloc_list]. cbn [length] in Hl. rewrite IH by lia.
  apply lookup_insert_ne. lia.
Qed.

Lemma wf_initial : wf initial.
Proof.
  split; cbn.
  - constructor.
  - intros l Hl. by apply elem_of_nil in Hl.
  - intros l [d Hd]. by rewrite lookup_empty in Hd.
  - done.
Qed.

Lemma wf_selected_below (c : Component) (l : nat) :
  wf c → l ∈ selectedFiles c → l < next_loc c.
Proof.
  intros Hwf Hl. destruct (wf_pending c Hwf l Hl) as (d & Hd & _).
  apply (wf_below c Hwf). by eexists.
Qed.

(** *** Selection *)

Lemma fileChange_entries uuidv4 (files : list File) (k : nat) (d : FileData) :
  imap (λ k f, {| id := uuidv4 k; file := f; uploaded := false;
                  uploadFailed := false |}) files !! k = Some d →
  uploaded d = false ∧ uploadFailed d = false.
Proof.
  rewrite list_lookup_imap. destruct (files !! k); [|done].
  simpl. by intros [= <-].
Qed.

(** Where a selected object of the new state comes from. *)
Lemma fileChange_selected uuidv4 (files : list File) (c : Component) (l : nat) :
  wf c → l ∈ selectedFiles (fst (handleFileChange uuidv4 files c)) →
  (l ∈ selectedFiles c
   ∧ objects (fst (handleFileChange uuidv4 files c)) !! l = objects c !! l)
  ∨ (∃ d, objects (fst (handleFileChange uuidv4 files c)) !! l = Some d
          ∧ uploaded d = false ∧ uploadFailed d = false).
Proof.
  intros Hwf. unfold handleFileChange.
  destruct (MAX_FILE_COUNT <? _); cbn [fst]; [by left|].
  cbn [selectedFiles objects]. set (entries := imap _ _).
  rewrite elem_of_app, elem_of_seq. intros [Hold | [Hge Hlt]].
  - left. split; [done|]. apply alloc_list_lookup_lt.
    by apply wf_selected_below.
  - right. destruct (lookup_lt_is_Some_2 entries (l - next_loc c)) as [d Hd];
      [lia|].
    exists d. split; [|by eapply fileChange_entries].
    replace l with (next_loc c + (l - next_loc c)) at 1 by lia.
    by apply alloc_list_lookup_new.
Qed.

Lemma flags_handleFileChange (P : bool → bool → Prop) uuidv4
    (files : list File) (c : Component) :
  P false false → wf c → selected_flags P c →
  selected_flags P (fst (handleFileChange uuidv4 files c)).
Proof.
  intros HP Hwf Hc l Hl.
  destruct (fileChange_selected _ _ _ _ Hwf Hl)
    as [[Hold ->] | (d & Hd & Hu & Hf)].
  - by apply Hc.
  - exists d. by rewrite Hu, Hf.
Qed.

Lemma wf_handleFileChange uuidv4 (files : list File) (c : Component) :
  wf c → wf (fst (handleFileChange uuidv4 files c)).
Proof.
  intros Hwf. split.
  - unfold handleFileChange. destruct (MAX_FILE_COUNT <? _); cbn; [apply Hwf|].
    apply NoDup_app. split; [apply Hwf|]. split; [|apply NoDup_seq].
    intros l Hl Hin. apply elem_of_seq in Hin.
    apply (wf_selected_below _ _ Hwf) in Hl. lia.
  - apply flags_handleFileChange; [done|done|apply Hwf].
  - unfold handleFileChange. destruct (MAX_FILE_COUNT <? _); cbn; [apply Hwf|].
    set (entries := imap _ _). intros l Hl.
    destruct (decide (l < next_loc c + length entries)) as [|Hge]; [done|].
    rewrite alloc_list_lookup_ge in Hl by lia.
    apply (wf_below c Hwf) in Hl. lia.
  - unfold handleFileChange. destruct (MAX_FILE_COUNT <? _); cbn; apply Hwf.
Qed.

(** *** Renaming *)

(** The entries after a rename, against the entries before it: an entry
    with the identifier is a fresh object that differs in its file name
    only, every other entry is the same reference; objects that existed
    before are not written to. *)
Lemma rename_entries_spec (i newName ext : string) :
  ∀ (sel : list nat) (h : gmap nat FileData) (n : nat),
    NoDup sel →
    (∀ l, l ∈ sel → is_Some (h !! l)) →
    (∀ l, is_Some (h !! l) → l < n) →
    ∃ ls h' n',
      rename_entries i newName ext sel h n = (ls, h', n')
      ∧ n ≤ n'
      ∧ (∀ l, is_Some (h' !! l) → l < n')
      ∧ (∀ l, l < n → h' !! l = h !! l)
      ∧ NoDup ls
      ∧ (∀ l', l' ∈ ls → l' ∈ sel ∨ n ≤ l')
      ∧ length ls = length sel
      ∧ (∀ k l, sel !! k = Some l →
           ∃ d l', h !! l = Some d ∧ ls !! k = Some l'
             ∧ if String.eqb (id d) i
               then h' !! l'
                    = Some (with_file
                              (renamed_file (newName +:+ "." +:+ ext) (file d)) d)
               else l' = l).
Proof.
  induction sel as [|l sel IH]; intros h n Hnd Hsel Hbelow.
  { exists [], h, n. do 4 (split; [done|]). split; [constructor|].
    split; [intros l' Hl'; by apply elem_of_nil in Hl'|]. split; [done|].
    intros k l Hk. by rewrite lookup_nil in Hk. }
  apply NoDup_cons in Hnd as [Hl Hnd].
  destruct (Hsel l) as [d Hd]; [by left|].
  assert (l < n) as Hln by (apply Hbelow; by eexists).
  assert (∀ l0, l0 ∈ sel → l0 < n) as Hsel_lt.
  { intros l0 Hl0. apply Hbelow, Hsel. by right. }
  cbn [rename_entries]. rewrite Hd.
  destruct (String.eqb (id d) i) eqn:Eid.
  - set (d' := with_file (renamed_file (newName +:+ "." +:+ ext) (file d)) d).
    destruct (IH (<[n := d']> h) (S n))
      as (ls & h' & n' & -> & Hle & Hb' & Hfr & Hnd' & Hin & Hlen & Hpos).
    + done.
    + intros l0 Hl0. rewrite lookup_insert_ne; [apply Hsel; by right|].
      apply Hsel_lt in Hl0. lia.
    + intros l0. rewrite lookup_insert. case_decide; [lia|].
      intros H0. apply Hbelow in H0. lia.
    + exists (n :: ls), h', n'. split; [done|]. split; [lia|]. split; [done|].
      split; [|split; [|split; [|split]]].
      * intros l0 Hl0. rewrite Hfr by lia. apply lookup_insert_ne. lia.
      * apply NoDup_cons. split; [|done]. intros Hn.
        destruct (Hin n Hn) as [Hn'|Hn']; [|lia].
        apply Hsel_lt in Hn'. lia.
      * intros l' Hl'. apply elem_of_cons in Hl' as [->|Hl']; [right; lia|].
        destruct (Hin l' Hl') as [?|?]; [left; by right | right; lia].
      * cbn [length]. by rewrite Hlen.
      * intros [|k] l0 Hk.
        -- injection Hk as <-. exists d, n. split; [done|]. split; [done|].
           rewrite Eid, Hfr by lia. apply lookup_insert_eq.
        -- change (sel !! k = Some l0) in Hk.
           destruct (Hpos k l0 Hk) as (d0 & l0' & Hd0 & Hl0' & Hrel).
           exists d0, l0'. split; [|done].
           rewrite lookup_insert_ne in Hd0; [done|].
           apply list_elem_of_lookup_2 in Hk. apply Hsel_lt in Hk. lia.
  - destruct (IH h n)
      as (ls & h' & n' & -> & Hle & Hb' & Hfr & Hnd' & Hin & Hlen & Hpos).
    + done.
    + intros l0 Hl0. apply Hsel. by right.
    + done.
    + exists (l :: ls), h', n'. split; [done|]. split; [done|]. split; [done|].
      split; [done|]. split; [|split; [|split]].
      * apply NoDup_cons. split; [|done]. intros Hn.
        destruct (Hin l Hn) as [Hn'|Hn']; [done|lia].
      * intros l' Hl'. apply elem_of_cons in Hl' as [->|Hl']; [left; by left|].
        destruct (Hin l' Hl') as [?|?]; [left; by right | by right].
      * cbn [length]. by rewrite Hlen.
      * intros [|k] l0 Hk.
        -- injection Hk as <-. exists d, l. by rewrite Eid.
        -- apply Hpos, Hk.
Qed.

Lemma regex_rejects_empty : NEW_NAME_REGEX_test EmptyString = false.
Proof. reflexivity. Qed.

(** A rename with an accepted name goes through [rename_entries]. *)
Lemma handleRename_accepted (c : Component) (i newName : string) (k l : nat) :
  list_find (has_id (objects c) i) (selectedFiles c) = Some (k, l) →
  NEW_NAME_REGEX_test newName = true →
  ∀ ls h n,
    rename_entries i newName
      (default EmptyString
         (pop (split (from_option (λ d, name (file d)) EmptyString (objects c !! l)))))
      (selectedFiles c) (objects c) (next_loc c) = (ls, h, n) →
    handleRename i (Some newName) c
    = ({| objects := h; next_loc := n; selectedFiles := ls;
          isUploading := isUploading c;
          uploadProgressCount := uploadProgressCount c |}, [Prompt]).
Proof.
  intros Hfind Hok ls h n Hren. unfold handleRename. rewrite Hfind.
  destruct newName as [|ch s]; [by rewrite regex_rejects_empty in Hok|].
  rewrite Hok. cbn [negb]. by rewrite Hren.
Qed.

(** Whatever the outcome of a rename, the new state is the old one or the
    result of [rename_entries] on it. *)
Lemma handleRename_cases (c : Component) (i : string) (newName : option string) :
  fst (handleRename i newName c) = c
  ∨ ∃ name ext ls h n,
      rename_entries i name ext (selectedFiles c) (objects c) (next_loc c)
      = (ls, h, n)
      ∧ fst (handleRename i newName c)
        = {| objects := h; next_loc := n; selectedFiles := ls;
             isUploading := isUploading c;
             uploadProgressCount := uploadProgressCount c |}.
Proof.
  unfold handleRename.
  destruct (list_find _ _) as [[k l]|]; [|by left].
  destruct newName as [[|ch s]|]; [by left| |by left].
  destruct (negb _); [by left|].
  destruct (rename_entries _ _ _ _ _ _) as [[ls h] n] eqn:E.
  right. eexists (String ch s), _, ls, h, n. split; [exact E|done].
Qed.

Lemma wf_selected_is_Some (c : Component) (l : nat) :
  wf c → l ∈ selectedFiles c → is_Some (objects c !! l).
Proof.
  intros Hwf Hl. destruct (wf_pending c Hwf l Hl) as (d & Hd & _). by eexists.
Qed.

Lemma flags_handleRename (P : bool → bool → Prop) (i : string)
    (newName : option string) (c : Component) :
  wf c → selected_flags P c →
  selected_flags P (fst (handleRename i newName c)).
Proof.
  intros Hwf Hc.
  destruct (handleRename_cases c i newName)
    as [-> | (nm & ext & ls & h & n & Hren & ->)]; [done|].
  destruct (rename_entries_spec i nm ext (selectedFiles c) (objects c) (next_loc c))
    as (ls' & h' & n' & Hren' & _ & _ & Hfr & _ & _ & Hlen & Hpos).
  { apply Hwf. } { intros l. by apply wf_selected_is_Some. } { apply Hwf. }
  rewrite Hren in Hren'. injection Hren' as <- <- <-.
  intros l' Hl'. cbn [selectedFiles objects] in *.
  apply list_elem_of_lookup in Hl' as [k Hk].
  destruct (lookup_lt_is_Some_2 (selectedFiles c) k) as [l Hl].
  { rewrite <- Hlen. by eapply lookup_lt_Some. }
  destruct (Hpos k l Hl) as (d & l'' & Hd & Hk' & Hrel).
  assert (l'' = l') as -> by congruence.
  assert (l ∈ selectedFiles c) as Hin by by eapply list_elem_of_lookup_2.
  destruct (Hc l Hin) as (d0 & Hd0 & HP).
  assert (d0 = d) as -> by congruence.
  destruct (String.eqb (id d) i).
  - eexists. split; [exact Hrel|]. exact HP.
  - subst l'. exists d. split; [|done]. rewrite Hfr; [done|].
    by apply wf_selected_below.
Qed.

Lemma wf_handleRename (i : string) (newName : option string) (c : Component) :
  wf c → wf (fst (handleRename i newName c)).
Proof.
  intros Hwf. split; [| by apply flags_handleRename; [|apply Hwf] | |].
  all: destruct (handleRename_cases c i newName)
         as [-> | (nm & ext & ls & h & n & Hren & ->)]; try apply Hwf.
  all: destruct (rename_entries_spec i nm ext (selectedFiles c) (objects c) (next_loc c))
         as (ls' & h' & n' & Hren' & _ & Hb & _ & Hnd & _);
         [apply Hwf | intros l; by apply wf_selected_is_Some | apply Hwf |].
  all: rewrite Hren in Hren'; injection Hren' as <- <- <-; done.
Qed.

(** *** Reset and delete *)

Lemma flags_handleDelete (P : bool → bool → Prop) (i : string) (c : Component) :
  selected_flags P c → selected_flags P (fst (handleDelete i c)).
Proof.
  intros Hc l Hl. cbn in Hl. apply list_elem_of_filter in Hl as [_ Hl].
  by apply Hc.
Qed.

Lemma wf_handleDelete (i : string) (c : Component) :
  wf c → wf (fst (handleDelete i c)).
Proof.
  intros Hwf. split; [|by apply flags_handleDelete, Hwf|apply Hwf|apply Hwf].
  cbn. apply NoDup_filter, Hwf.
Qed.

Lemma wf_handleReset (c : Component) : wf c → wf (fst (handleReset c)).
Proof.
  intros Hwf. split; [constructor| |apply Hwf|apply Hwf].
  intros l Hl. by apply elem_of_nil in Hl.
Qed.

(** *** Submission: the requests settle *)

Lemma write_uploaded_twice (v : bool) (o : option FileData) :
  write_uploaded v <$> (write_uploaded v <$> o) = write_uploaded v <$> o.
Proof. by destruct o. Qed.

Lemma write_uploaded_same (d : FileData) : write_uploaded (uploaded d) d = d.
Proof. by destruct d. Qed.

(** One settlement, field by field. *)
Lemma settle_at (files : list nat) res (r : Run) (k l : nat) :
  files !! k = Some l →
  objects (comp (settle files res r k))
  = match res k with
    | Resolved ok => alter (write_uploaded ok) l (objects (comp r))
    | Failed => objects (comp r)
    end
  ∧ uploadProgressCount (comp (settle files res r k))
    = (uploadProgressCount (comp r) - 1)%Z
  ∧ progress (settle files res r k)
    = progress r ++ [(uploadProgressCount (comp r) - 1)%Z]
  ∧ effects (settle files res r k)
    = effects r ++ match res k with Resolved _ => [] | Failed => [ConsoleError] end
  ∧ selectedFiles (comp (settle files res r k)) = selectedFiles (comp r)
  ∧ next_loc (comp (settle files res r k)) = next_loc (comp r)
  ∧ isUploading (comp (settle files res r k)) = isUploading (comp r).
Proof.
  intros Hk. unfold settle. rewrite Hk. destruct (res k); cbn.
  - by rewrite app_nil_r.
  - done.
Qed.

Lemma settle_all_progress (files : list nat) res (order : list nat) :
  Forall (λ k, k < length files) order →
  ∀ r,
    progress (foldl (settle files res) r order)
    = progress r
      ++ ((λ j, (uploadProgressCount (comp r) - Z.of_nat (S j))%Z)
            <$> seq 0 (length order))
    ∧ uploadProgressCount (comp (foldl (settle files res) r order))
      = (uploadProgressCount (comp r) - Z.of_nat (length order))%Z.
Proof.
  induction 1 as [|k order Hk _ IH]; intros r.
  { cbn. rewrite app_nil_r. split; [done|lia]. }
  destruct (lookup_lt_is_Some_2 files k Hk) as [l Hl].
  destruct (settle_at files res r k l Hl) as (_ & Hc & Hp & _).
  cbn [foldl length]. destruct (IH (settle files res r k)) as [-> ->].
  rewrite Hc, Hp. split; [|lia].
  rewrite <- app_assoc. f_equal. cbn [seq fmap list_fmap app]. f_equal.
  rewrite <- fmap_S_seq, <- list_fmap_compose. apply list_fmap_ext.
  intros _ j _. cbn. lia.
Qed.

Lemma settle_all_frame (files : list nat) res (order : list nat) :
  Forall (λ k, k < length files) order →
  ∀ r,
    selectedFiles (comp (foldl (settle files res) r order)) = selectedFiles (comp r)
    ∧ next_loc (comp (foldl (settle files res) r order)) = next_loc (comp r)
    ∧ isUploading (comp (foldl (settle files res) r order)) = isUploading (comp r)
    ∧ ∃ es, effects (foldl (settle files res) r order) = effects r ++ es
            ∧ Forall (λ e, e = ConsoleError) es.
Proof.
  induction 1 as [|k order Hk _ IH]; intros r.
  { cbn. do 3 (split; [done|]). exists []. by rewrite app_nil_r. }
  destruct (lookup_lt_is_Some_2 files k Hk) as [l Hl].
  destruct (settle_at files res r k l Hl) as (_ & _ & _ & He & Hs & Hn & Hu).
  cbn [foldl]. destruct (IH (settle files res r k)) as (-> & -> & -> & es & -> & Hes).
  do 3 (split; [done|]). rewrite He, <- app_assoc. eexists. split; [done|].
  apply Forall_app. split; [|done]. destruct (res k); by repeat constructor.
Qed.

(** The object of position [k] once the requests listed in [order] have
    settled. *)
Lemma settle_all_objects (files : list nat) res (order : list nat) :
  NoDup files → Forall (λ k, k < length files) order →
  ∀ r k l, files !! k = Some l →
    objects (comp (foldl (settle files res) r order)) !! l
    = if decide (k ∈ order)
      then match res k with
           | Resolved ok => write_uploaded ok <$> objects (comp r) !! l
           | Failed => objects (comp r) !! l
           end
      else objects (comp r) !! l.
Proof.
  intros Hnd. induction 1 as [|x order Hx _ IH]; intros r k l Hk.
  { cbn. rewrite decide_False; [done|]. apply not_elem_of_nil. }
  destruct (lookup_lt_is_Some_2 files x Hx) as [lx Hlx].
  destruct (settle_at files res r x lx Hlx) as (Ho & _).
  cbn [foldl]. rewrite (IH _ k l Hk), Ho.
  destruct (decide (x = k)) as [->|Hne].
  - assert (lx = l) as -> by congruence.
    rewrite (decide_True (P := k ∈ k :: order)) by by left.
    destruct (res k) as [ok|].
    + rewrite lookup_alter_eq, write_uploaded_twice. by case_decide.
    + by case_decide.
  - assert (lx ≠ l) as Hll.
    { intros ->. apply Hne. by eapply NoDup_lookup. }
    assert (match res x with
            | Resolved ok => alter (write_uploaded ok) lx (objects (comp r))
            | Failed => objects (comp r)
            end !! l = objects (comp r) !! l) as ->.
    { destruct (res x); [by apply lookup_alter_ne|done]. }
    destruct (decide (k ∈ order)) as [Hin|Hin].
    + rewrite decide_True; [done|]. by right.
    + rewrite decide_False; [done|]. intros [?|?]%elem_of_cons; done.
Qed.

Lemma settle_all_is_Some (files : list nat) res (order : list nat) :
  Forall (λ k, k < length files) order →
  ∀ r l, is_Some (objects (comp (foldl (settle files res) r order)) !! l)
         ↔ is_Some (objects (comp r) !! l).
Proof.
  induction 1 as [|x order Hx _ IH]; intros r l; [done|].
  destruct (lookup_lt_is_Some_2 files x Hx) as [lx Hlx].
  destruct (settle_at files res r x lx Hlx) as (Ho & _).
  cbn [foldl]. rewrite IH, Ho. destruct (res x); [|done].
  rewrite lookup_alter. case_decide; [subst; by rewrite fmap_is_Some|done].
Qed.

Lemma settles_each_once_lt (c : Component) (order : list nat) :
  settles_each_once c order →
  Forall (λ k, k < length (selectedFiles c)) order.
Proof.
  intros Hp. apply Forall_forall. intros k Hk.
  rewrite Hp in Hk. apply elem_of_seq in Hk. lia.
Qed.

Lemma settles_each_once_elem (c : Component) (order : list nat) (k : nat) :
  settles_each_once c order → k < length (selectedFiles c) → k ∈ order.
Proof. intros Hp Hk. rewrite Hp. apply elem_of_seq. lia. Qed.

(** With every request settled, the object of position [k] is the one the
    submission started with, marked uploaded exactly when its request
    succeeded. *)
Lemma settled_object (c : Component) res (order : list nat) (k l : nat) :
  wf c → settles_each_once c order → selectedFiles c !! k = Some l →
  ∃ d, objects c !! l = Some d ∧ uploaded d = false
       ∧ objects (comp (foldl (settle (selectedFiles c) res) (startUpload c) order)) !! l
         = Some (write_uploaded (succeeded res k) d).
Proof.
  intros Hwf Hp Hk.
  destruct (wf_pending c Hwf l) as (d & Hd & Hu); [by eapply list_elem_of_lookup_2|].
  exists d. split; [done|]. split; [done|].
  rewrite (settle_all_objects _ _ _ (wf_nodup c Hwf) (settles_each_once_lt _ _ Hp) _ k l Hk).
  rewrite decide_True
    by (eapply settles_each_once_elem; [done|by eapply lookup_lt_Some]).
  change (objects (comp (startUpload c))) with (objects c). rewrite Hd.
  unfold succeeded. destruct (res k) as [[]|]; cbn; try done.
  by rewrite <- Hu, write_uploaded_same.
Qed.

(** *** Submission: reconciliation *)

Lemma mark_failed_lookup (ls : list nat) :
  ∀ (h : gmap nat FileData) (l : nat),
    foldl (λ h l, alter (write_uploadFailed true) l h) h ls !! l
    = if decide (l ∈ ls) then write_uploadFailed true <$> h !! l else h !! l.
Proof.
  induction ls as [|x ls IH]; intros h l.
  { cbn. rewrite decide_False; [done|]. apply not_elem_of_nil. }
  cbn [foldl]. rewrite IH, lookup_alter.
  destruct (decide (x = l)) as [->|Hne].
  - rewrite (decide_True (P := l ∈ l :: ls)) by by left.
    case_decide; [|done]. by destruct (h !! l).
  - destruct (decide (l ∈ ls)) as [Hin|Hin].
    + rewrite decide_True; [done|]. by right.
    + rewrite decide_False; [done|]. intros [?|?]%elem_of_cons; done.
Qed.

(** The state and the effects that [reconcile] leaves. *)
Lemma reconcile_fields (files : list nat) (r : Run) :
  let h := objects (comp r) in
  let filesToRetain := filter (λ l, flag uploaded h l = false) files in
  let h' := foldl (λ h l, alter (write_uploadFailed true) l h) h filesToRetain in
  selectedFiles (comp (reconcile files r)) = filesToRetain
  ∧ objects (comp (reconcile files r)) = h'
  ∧ next_loc (comp (reconcile files r)) = next_loc (comp r)
  ∧ isUploading (comp (reconcile files r)) = false
  ∧ uploadProgressCount (comp (reconcile files r)) = uploadProgressCount (comp r)
  ∧ progress (reconcile files r) = progress r
  ∧ effects (reconcile files r)
    = effects r
      ++ (if existsb (flag uploaded h) files then [OnUploadSuccess] else [])
      ++ (if existsb (flag uploadFailed h') files then [Alert FAILED_MESSAGE] else []).
Proof.
  cbv zeta. unfold reconcile.
  destruct (existsb (flag uploaded (objects (comp r))) files) eqn:E1; cbn;
    destruct (existsb (flag uploadFailed _) files) eqn:E2; cbn;
    rewrite ?app_nil_r, <- ?app_assoc; done.
Qed.

Lemma flag_lookup (p : FileData → bool) (h : gmap nat FileData) (l : nat)
    (d : FileData) :
  h !! l = Some d → flag p h l = p d.
Proof. intros H. unfold flag. by rewrite H. Qed.

Lemma existsb_flag (p : FileData → bool) (h : gmap nat FileData) (files : list nat) :
  existsb (flag p h) files = true ↔ ∃ l, l ∈ files ∧ flag p h l = true.
Proof.
  rewrite existsb_exists. split; intros (l & Hl & Hf); exists l;
    (split; [by apply list_elem_of_In|done]).
Qed.

(** The writes of a submission leave the invariant in place. *)
Lemma wf_handleSubmit res (order : list nat) (c : Component) :
  wf c → settles_each_once c order → wf (comp (handleSubmit res order c)).
Proof.
  intros Hwf Hp. unfold handleSubmit.
  set (r := foldl _ _ _).
  destruct (reconcile_fields (selectedFiles c) r) as (Hs & Ho & Hn & Hu & _).
  destruct (settle_all_frame _ res order (settles_each_once_lt _ _ Hp) (startUpload c))
    as (_ & Hn' & _). fold r in Hn'.
  split.
  - rewrite Hs. apply NoDup_filter, Hwf.
  - intros l Hl. rewrite Hs in Hl. apply list_elem_of_filter in Hl as [Hup Hl].
    apply list_elem_of_lookup in Hl as [k Hk].
    destruct (settled_object c res order k l Hwf Hp Hk) as (d & _ & _ & Hd).
    fold r in Hd. unfold flag in Hup. rewrite Hd in Hup. cbn in Hup.
    rewrite Ho, mark_failed_lookup, Hd. case_decide; eexists; (split; [done|]);
      cbn; done.
  - intros l. rewrite Ho, mark_failed_lookup, Hn, Hn'.
    change (next_loc (comp (startUpload c))) with (next_loc c).
    intros Hl. apply (wf_below c Hwf).
    assert (is_Some (objects (comp r) !! l)) as Hr.
    { case_decide; [by apply fmap_is_Some in Hl|done]. }
    by apply (settle_all_is_Some _ res order (settles_each_once_lt _ _ Hp)
                (startUpload c)) in Hr.
  - done.
Qed.

Lemma wf_dispatch (e : Event) (c : Component) :
  wf c → admissible e c → wf (dispatch e c).
Proof.
  intros Hwf Hadm. destruct e; cbn [dispatch].
  - by apply wf_handleFileChange.
  - by apply wf_handleSubmit.
  - by apply wf_handleReset.
  - by apply wf_handleDelete.
  - by apply wf_handleRename.
Qed.

Lemma reachable_by_wf (evs : list Event) (c : Component) :
  reachable_by evs c → wf c.
Proof.
  induction 1 as [|e evs c _ IH Hadm]; [apply wf_initial|by apply wf_dispatch].
Qed.

Lemma reachable_wf (c : Component) : reachable c → wf c.
Proof. intros [evs H]. by eapply reachable_by_wf. Qed.

Lemma submit_retained_flags res (order : list nat) (c : Component) :
  wf c → settles_each_once c order →
  selected_flags (λ up failed, up = false ∧ failed = true)
    (comp (handleSubmit res order c)).
Proof.
  intros Hwf Hp l. unfold handleSubmit. set (r := foldl _ _ _).
  destruct (reconcile_fields (selectedFiles c) r) as (Hs & Ho & _).
  rewrite Hs, Ho. intros Hl.
  rewrite mark_failed_lookup, decide_True by done.
  apply list_elem_of_filter in Hl as [Hup Hl].
  apply list_elem_of_lookup in Hl as [k Hk].
  destruct (settled_object c res order k l Hwf Hp Hk) as (d & _ & _ & Hd).
  fold r in Hd. unfold flag in Hup. rewrite Hd in Hup. cbn in Hup.
  rewrite Hd. eexists. split; [done|]. cbn. done.
Qed.

Lemma unsubmitted_flags (evs : list Event) (c : Component) :
  reachable_by evs c → Forall (λ e, is_submit e = false) evs →
  selected_flags (λ up failed, up = false ∧ failed = false) c.
Proof.
  induction 1 as [|e evs c Hreach IH Hadm]; intros Hno.
  { intros l Hl. by apply elem_of_nil in Hl. }
  apply Forall_cons in Hno as [He Hno]. specialize (IH Hno).
  pose proof (reachable_by_wf _ _ Hreach) as Hwf.
  destruct e; cbn [dispatch]; [|done| | |].
  - by apply flags_handleFileChange.
  - intros l Hl. by apply elem_of_nil in Hl.
  - by apply flags_handleDelete.
  - by apply flags_handleRename.
Qed.



(** *** The claims about the console *)


Lemma three_selected_reachable :
  reachable_by
    [FileChange Samples.uuids
       [Samples.photo "one.jpg"; Samples.photo "README"; Samples.photo "three.jpg"]]
    Samples.three_selected.
Proof. exact (reach_event (FileChange _ _) [] initial reach_initial I). Defined.

Lemma after_first_reachable :
  reachable_by
    [Submit Samples.mixed [2; 0; 1];
     FileChange Samples.uuids
       [Samples.photo "one.jpg"; Samples.photo "README"; Samples.photo "three.jpg"]]
    Samples.after_first.
Proof.
  apply (reach_event (Submit _ _) _ _ three_selected_reachable).
  cbn [admissible]. apply (bool_decide_unpack _). vm_compute. exact I.
Defined.

Lemma after_retry_reachable :
  reachable_by
    [Submit Samples.retry [1; 0];
     Submit Samples.mixed [2; 0; 1];
     FileChange Samples.uuids
       [Samples.photo "one.jpg"; Samples.photo "README"; Samples.photo "three.jpg"]]
    Samples.after_retry.
Proof.
  apply (reach_event (Submit _ _) _ _ after_first_reachable).
  cbn [admissible]. apply (bool_decide_unpack _). vm_compute. exact I.
Defined.



(** C2. Once every request of a submission has settled: the selection is
    replaced by the files whose request did not succeed, in their order
    (a file is kept exactly when its request failed), each of them the same
    object now marked as failed; the refresh callback is invoked when some
    request succeeded; and when some request failed the failure message is
    shown, once, as the last thing the handler does. *)
Theorem submit_reconciles (c : Component) res (order : list nat) :
  reachable c → settles_each_once c order →
  let r := handleSubmit res order c in
  let files := selectedFiles c in
  sublist (selectedFiles (comp r)) files
  ∧ (∀ k l, files !! k = Some l →
       (l ∈ selectedFiles (comp r) ↔ succeeded res k = false)
       ∧ (succeeded res k = false →
          ∃ d, objects c !! l = Some d
               ∧ objects (comp r) !! l = Some (write_uploadFailed true d)))
  ∧ ((∃ k, k < length files ∧ succeeded res k = true) →
     OnUploadSuccess ∈ effects r)
  ∧ ((∃ k, k < length files ∧ succeeded res k = false) →
     ∃ before, effects r = before ++ [Alert FAILED_MESSAGE]
               ∧ Forall (λ e, ∀ msg, e ≠ Alert msg) before).
Proof.
  intros Hreach Hp r files. apply reachable_wf in Hreach as Hwf.
  unfold r, handleSubmit. fold files. set (r4 := foldl _ _ _).
  destruct (reconcile_fields files r4) as (Hs & Ho & _ & _ & _ & _ & He).
  assert (∀ k l, files !! k = Some l →
            ∃ d, objects c !! l = Some d ∧ uploaded d = false
                 ∧ objects (comp r4) !! l = Some (write_uploaded (succeeded res k) d))
    as Hobj by (intros k l Hk; by apply settled_object).
  assert (∀ k l, files !! k = Some l →
            flag uploaded (objects (comp r4)) l = succeeded res k) as Hflag.
  { intros k l Hk. destruct (Hobj k l Hk) as (d & _ & _ & Hd).
    unfold flag. by rewrite Hd. }
  assert (∀ k l, files !! k = Some l →
            (l ∈ selectedFiles (comp (reconcile files r4)) ↔ succeeded res k = false))
    as Hkept.
  { intros k l Hk. rewrite Hs, list_elem_of_filter, (Hflag k l Hk).
    split; [by intros [? _]|]. intros Hf. split; [done|].
    by eapply list_elem_of_lookup_2. }
  assert (∀ k l, files !! k = Some l → succeeded res k = false →
            ∃ d, objects c !! l = Some d
                 ∧ objects (comp (reconcile files r4)) !! l
                   = Some (write_uploadFailed true d)) as Hmarked.
  { intros k l Hk Hf. destruct (Hobj k l Hk) as (d & Hd & Hu & Hd4).
    exists d. split; [done|]. rewrite Ho, mark_failed_lookup, Hd4, Hf.
    rewrite decide_True.
    - cbn. by rewrite <- Hu, write_uploaded_same.
    - rewrite <- Hs. by apply (Hkept k l Hk). }
  split; [rewrite Hs; apply sublist_filter|]. split; [|split].
  - intros k l Hk. split; [by apply Hkept|by apply Hmarked].
  - intros (k & Hk & Hok). rewrite He.
    destruct (lookup_lt_is_Some_2 files k Hk) as [l Hl].
    assert (existsb (flag uploaded (objects (comp r4))) files = true) as ->.
    { apply existsb_flag. exists l. split; [by eapply list_elem_of_lookup_2|].
      by rewrite (Hflag k l Hl). }
    rewrite !elem_of_app. right. left. by left.
  - intros (k & Hk & Hfail). rewrite He.
    destruct (lookup_lt_is_Some_2 files k Hk) as [l Hl].
    assert (existsb (flag uploadFailed
                       (foldl (λ h l, alter (write_uploadFailed true) l h)
                          (objects (comp r4))
                          (filter (λ l, flag uploaded (objects (comp r4)) l = false)
                             files))) files = true) as ->.
    { apply existsb_flag. exists l. split; [by eapply list_elem_of_lookup_2|].
      destruct (Hmarked k l Hl Hfail) as (d & _ & Hd).
      rewrite Ho in Hd. by rewrite (flag_lookup _ _ _ _ Hd). }
    rewrite app_assoc. eexists. split; [done|].
    destruct (settle_all_frame files res order (settles_each_once_lt _ _ Hp)
                (startUpload c)) as (_ & _ & _ & es & Hes4 & Hes).
    fold r4 in Hes4. rewrite Hes4, !Forall_app. split; [split|].
    + cbn. apply Forall_fmap, Forall_forall. intros ? _ msg. done.
    + eapply Forall_impl; [exact Hes|]. intros ? -> msg. done.
    + destruct (existsb _ files); repeat constructor. done.
Qed.

Lemma submit_reconciles_witness :
  selectedFiles (comp (handleSubmit Samples.mixed [2; 0; 1] Samples.three_selected))
  = [1; 2]
  ∧ OnUploadSuccess
    ∈ effects (handleSubmit Samples.mixed [2; 0; 1] Samples.three_selected)
  ∧ ∃ before,
      effects (handleSubmit Samples.mixed [2; 0; 1] Samples.three_selected)
      = before ++ [Alert FAILED_MESSAGE]
      ∧ Forall (λ e, ∀ msg, e ≠ Alert msg) before.
Proof.
  destruct (submit_reconciles Samples.three_selected Samples.mixed [2; 0; 1])
    as (_ & _ & Hrefresh & Halert).
  - eexists. exact three_selected_reachable.
  - apply (bool_decide_unpack _). vm_compute. exact I.
  - split; [vm_compute; reflexivity|]. split.
    + apply Hrefresh. exists 0. split; [vm_compute; lia|reflexivity].
    + apply Halert. exists 1. split; [vm_compute; lia|reflexivity].
Defined.

(** The failure flag of an object is never cleared: when a file that failed
    before succeeds on a new attempt, it is dropped from the selection, its
    object (no longer selected) carries both flags, and the failure message
    is shown all the same. *)
Example retried_success_still_alerts :
  selectedFiles (comp (handleSubmit Samples.all_ok [0; 1] Samples.after_first)) = []
  ∧ (λ d, (uploaded d, uploadFailed d))
      <$> objects (comp (handleSubmit Samples.all_ok [0; 1] Samples.after_first)) !! 1
    = Some (true, true)
  ∧ last (effects (handleSubmit Samples.all_ok [0; 1] Samples.after_first))
    = Some (Alert FAILED_MESSAGE).
Proof. repeat split; vm_compute; reflexivity. Qed.

Lemma filter_zero_positive (l : list Z) :
  Forall (λ v, (0 < v)%Z) l → filter (λ v, v = 0%Z) l = [].
Proof.
  induction 1 as [|v l Hv _ IH]; [done|].
  rewrite filter_cons, decide_False by lia. exact IH.
Qed.

Lemma countdown_zero_once (K : nat) :
  filter (λ v, v = 0%Z) ((λ j, (Z.of_nat K - Z.of_nat j)%Z) <$> seq 0 (S K))
  = [0%Z].
Proof.
  rewrite seq_S, fmap_app, filter_app. cbn [fmap list_fmap plus].
  rewrite filter_cons, decide_True by lia. rewrite filter_nil.
  assert (filter (λ v, v = 0%Z) ((λ j, (Z.of_nat K - Z.of_nat j)%Z) <$> seq 0 K) = [])
    as ->; [|cbn; f_equal; lia].
  apply filter_zero_positive, Forall_fmap, Forall_forall.
  intros j Hj. apply elem_of_seq in Hj. cbn. lia.
Qed.

(** C5. For a submission of K files whose requests all settle, in any order
    and with any outcome: the counter is first set to K; the settlement of
    a request takes exactly one off it, whatever the outcome; the values it
    goes through are K, K-1, ..., 0, none of them negative, with 0 taken
    exactly once, at the end. *)
Theorem progress_accounting (c : Component) res (order : list nat) :
  settles_each_once c order →
  let K := length (selectedFiles c) in
  let r := handleSubmit res order c in
  head (progress r) = Some (Z.of_nat K)
  ∧ (∀ r0 k, k < K →
       uploadProgressCount (comp (settle (selectedFiles c) res r0 k))
       = (uploadProgressCount (comp r0) - 1)%Z
       ∧ progress (settle (selectedFiles c) res r0 k)
         = progress r0 ++ [(uploadProgressCount (comp r0) - 1)%Z])
  ∧ progress r = (λ j, (Z.of_nat K - Z.of_nat j)%Z) <$> seq 0 (S K)
  ∧ Forall (λ v, (0 ≤ v)%Z) (progress r)
  ∧ length (filter (λ v, v = 0%Z) (progress r)) = 1
  ∧ last (progress r) = Some 0%Z
  ∧ uploadProgressCount (comp r) = 0%Z.
Proof.
  intros Hp K r.
  assert (length order = K) as Hlen.
  { unfold K. rewrite Hp. apply length_seq. }
  assert (progress r = (λ j, (Z.of_nat K - Z.of_nat j)%Z) <$> seq 0 (S K)) as Hprog.
  { unfold r, handleSubmit.
    destruct (reconcile_fields (selectedFiles c)
                (foldl (settle (selectedFiles c) res) (startUpload c) order))
      as (_ & _ & _ & _ & _ & -> & _).
    destruct (settle_all_progress _ res order (settles_each_once_lt _ _ Hp)
                (startUpload c)) as [-> _].
    rewrite Hlen. cbn [startUpload progress comp uploadProgressCount
                       setUploadProgressCount update emit app].
    fold K. cbn [seq fmap list_fmap]. f_equal; [lia|].
    rewrite <- fmap_S_seq, <- list_fmap_compose. done. }
  split; [rewrite Hprog; cbn; f_equal; lia|]. split; [|split; [done|]].
  { intros r0 k Hk. destruct (lookup_lt_is_Some_2 (selectedFiles c) k Hk) as [l Hl].
    destruct (settle_at (selectedFiles c) res r0 k l Hl) as (_ & Hc & Hpr & _).
    done. }
  split; [|split; [|split]].
  - rewrite Hprog. apply Forall_fmap, Forall_forall.
    intros j Hj. apply elem_of_seq in Hj. cbn. lia.
  - by rewrite Hprog, countdown_zero_once.
  - rewrite Hprog, seq_S, fmap_app. cbn [fmap list_fmap].
    rewrite last_snoc. f_equal. lia.
  - unfold r, handleSubmit.
    destruct (reconcile_fields (selectedFiles c)
                (foldl (settle (selectedFiles c) res) (startUpload c) order))
      as (_ & _ & _ & _ & -> & _).
    destruct (settle_all_progress _ res order (settles_each_once_lt _ _ Hp)
                (startUpload c)) as [_ ->].
    rewrite Hlen. cbn. fold K. lia.
Qed.

Lemma progress_accounting_witness :
  progress (handleSubmit Samples.mixed [2; 0; 1] Samples.three_selected)
  = [3; 2; 1; 0]%Z
  ∧ length (filter (λ v, v = 0%Z)
              (progress (handleSubmit Samples.mixed [2; 0; 1] Samples.three_selected)))
    = 1.
Proof.
  destruct (progress_accounting Samples.three_selected Samples.mixed [2; 0; 1])
    as (_ & _ & Hprog & _ & Hzero & _).
  - apply (bool_decide_unpack _). vm_compute. exact I.
  - split; [|exact Hzero]. rewrite Hprog. vm_compute. reflexivity.
Defined.

(** *** Renaming: the two claims *)

Lemma all_chars_app (p : ascii → bool) (a b : string) :
  all_chars p (a +:+ b) = all_chars p a && all_chars p b.
Proof.
  induction a as [|c a IH]; simpl; [done|]. by rewrite IH, andb_assoc.
Qed.

Lemma regex_rejects_char (a b : string) (ch : ascii) :
  is_alnum ch = false → NEW_NAME_REGEX_test (a +:+ String ch b) = false.
Proof.
  intros Hch. unfold NEW_NAME_REGEX_test. rewrite all_chars_app. cbn.
  by rewrite Hch, andb_false_r, andb_false_r.
Qed.

Lemma regex_rejects_long (s : string) :
  NEW_NAME_MAX_LENGTH < String.length s → NEW_NAME_REGEX_test s = false.
Proof.
  unfold NEW_NAME_REGEX_test, NEW_NAME_MAX_LENGTH. intros Hlen.
  assert ((String.length s <=? 20) = false) as -> by (apply Nat.leb_gt; lia).
  by rewrite andb_false_r.
Qed.

Lemma find_selected (c : Component) (i : string) (k l : nat) (d : FileData) :
  selectedFiles c !! k = Some l → objects c !! l = Some d → id d = i →
  is_Some (list_find (has_id (objects c) i) (selectedFiles c)).
Proof.
  intros Hk Hd Hid. eapply list_find_elem_of.
  - by eapply list_elem_of_lookup_2.
  - unfold has_id. by rewrite Hd, <- Hid.
Qed.

(** C9. A rename of a pending file with an invalid name (the prompt
    dismissed, an empty name, a name longer than the cap, or a name with a
    character that is not a letter or a digit) shows the message of its
    kind and leaves the whole component as it was: the selection and every
    object of the store. *)
Theorem invalid_rename_unchanged (c : Component) (i : string)
    (newName : option string) (k l : nat) (d : FileData) :
  selectedFiles c !! k = Some l → objects c !! l = Some d → id d = i →
  (newName = None ∨ newName = Some EmptyString
   ∨ ∃ s, newName = Some s
          ∧ (NEW_NAME_MAX_LENGTH < String.length s
             ∨ ∃ a ch b, s = a +:+ String ch b ∧ is_alnum ch = false)) →
  fst (handleRename i newName c) = c
  ∧ snd (handleRename i newName c)
    = [Prompt;
       Alert (match newName with
              | None | Some EmptyString => EMPTY_NAME_MESSAGE
              | Some _ => INVALID_NAME_MESSAGE
              end)].
Proof.
  intros Hk Hd Hid Hbad.
  destruct (find_selected c i k l d Hk Hd Hid) as [[k0 l0] Hfind].
  unfold handleRename. rewrite Hfind.
  destruct newName as [[|ch0 s0]|]; [done| |done].
  assert (NEW_NAME_REGEX_test (String ch0 s0) = false) as ->; [|done].
  destruct Hbad as [?|[?|(s & [= <-] & [Hlong|(a & ch & b & -> & Hch)])]];
    [done|done| |].
  - by apply regex_rejects_long.
  - by apply regex_rejects_char.
Qed.

Lemma invalid_rename_unchanged_witness :
  fst (handleRename "id-b" (Some "ABCDEFGHIJKLMNOPQRSTUVWXYZ") Samples.three_selected)
  = Samples.three_selected
  ∧ fst (handleRename "id-b" (Some "new name") Samples.three_selected)
    = Samples.three_selected
  ∧ handleRename "id-b" (Some EmptyString) Samples.three_selected
    = (Samples.three_selected, [Prompt; Alert EMPTY_NAME_MESSAGE]).
Proof.
  split; [|split].
  - apply (invalid_rename_unchanged Samples.three_selected "id-b"
             (Some "ABCDEFGHIJKLMNOPQRSTUVWXYZ") 1 1
             {| id := "id-b"; file := Samples.photo "README";
                uploaded := false; uploadFailed := false |});
      [reflexivity|reflexivity|reflexivity|].
    right. right. eexists. split; [reflexivity|]. left. vm_compute. lia.
  - apply (invalid_rename_unchanged Samples.three_selected "id-b"
             (Some "new name") 1 1
             {| id := "id-b"; file := Samples.photo "README";
                uploaded := false; uploadFailed := false |});
      [reflexivity|reflexivity|reflexivity|].
    right. right. eexists. split; [reflexivity|]. right.
    exists "new", " "%char, "name". split; reflexivity.
  - destruct (invalid_rename_unchanged Samples.three_selected "id-b"
                (Some EmptyString) 1 1
                {| id := "id-b"; file := Samples.photo "README";
                   uploaded := false; uploadFailed := false |})
      as [Hst Heff]; [reflexivity|reflexivity|reflexivity|right; left; reflexivity|].
    rewrite (surjective_pairing (handleRename _ _ _)). by rewrite Hst, Heff.
Defined.

(** C10. When the file that a rename addresses has a name without a dot,
    a rename with an accepted name gives it the name
    newName + "." + its whole old name; its identifier, type, size and
    flags stay as they were. *)
Theorem rename_dotless_appends_name (c : Component) (i newName : string)
    (k l : nat) (d : FileData) :
  reachable c →
  list_find (has_id (objects c) i) (selectedFiles c) = Some (k, l) →
  objects c !! l = Some d →
  has_dot (name (file d)) = false →
  NEW_NAME_REGEX_test newName = true →
  let c' := fst (handleRename i (Some newName) c) in
  ∃ l', selectedFiles c' !! k = Some l'
        ∧ objects c' !! l'
          = Some {| id := id d;
                    file := {| name := newName +:+ "." +:+ name (file d);
                               type := type (file d);
                               size := size (file d) |};
                    uploaded := uploaded d;
                    uploadFailed := uploadFailed d |}.
Proof.
  intros Hreach Hfind Hd Hdot Hok. apply reachable_wf in Hreach as Hwf.
  apply list_find_Some in Hfind as Hfound. destruct Hfound as (Hk & Hid & _).
  destruct (rename_entries_spec i newName (name (file d))
              (selectedFiles c) (objects c) (next_loc c))
    as (ls & h & n & Hren & _ & _ & _ & _ & _ & _ & Hpos).
  { apply Hwf. } { intros l0. by apply wf_selected_is_Some. } { apply Hwf. }
  cbv zeta. rewrite (handleRename_accepted c i newName k l Hfind Hok ls h n).
  2: { rewrite Hd. cbn [from_option].
       by rewrite (JsStringFacts.pop_split_dotless _ Hdot). }
  cbn [fst selectedFiles objects].
  destruct (Hpos k l Hk) as (d0 & l' & Hd0 & Hl' & Hrel).
  assert (d0 = d) as -> by congruence.
  unfold has_id in Hid. rewrite Hd in Hid. cbn in Hid. injection Hid as Hid.
  rewrite (proj2 (String.eqb_eq _ _) Hid) in Hrel.
  exists l'. split; [done|]. exact Hrel.
Qed.

Lemma rename_dotless_appends_name_witness :
  ∃ l', selectedFiles (fst (handleRename "id-b" (Some "notes") Samples.three_selected))
        !! 1 = Some l'
        ∧ objects (fst (handleRename "id-b" (Some "notes") Samples.three_selected)) !! l'
          = Some {| id := "id-b";
                    file := {| name := "notes.README"; type := "image/jpeg"; size := 12 |};
                    uploaded := false; uploadFailed := false |}.
Proof.
  apply (rename_dotless_appends_name Samples.three_selected "id-b" "notes" 1 1
           {| id := "id-b"; file := Samples.photo "README";
              uploaded := false; uploadFailed := false |}).
  - eexists. exact three_selected_reachable.
  - reflexivity.
  - reflexivity.
  - reflexivity.
  - reflexivity.
Defined.

(** The extension of a dotted name is kept, as in the component's tests. *)
Example rename_keeps_extension :
  (λ c, (λ l, name (file l)) <$> (selectedFiles c ≫= λ l, option_list (objects c !! l)))
    (fst (handleRename "id-a" (Some "newname") Samples.three_selected))
  = ["newname.jpg"; "README"; "three.jpg"].
Proof. vm_compute. reflexivity. Qed.

Example rename_unknown_id_throws :
  handleRename "nobody" (Some "newname") Samples.three_selected
  = (Samples.three_selected, [Prompt; Uncaught "TypeError"]).
Proof. reflexivity. Qed.

End UploadConsoleSpec.

(** ** More about the router *)

Module RouterExtra.
Import JsString Router RouterView.

Lemma uploadFile_success (r : AxiosOutcome unit) (f : MulterFile) :
  success (fst (uploadFile r f)) = true
  ↔ allowed (mimetype f) = true ∧ recorded_status r = 200 ∧ ∃ s d, r = Fulfilled s d.
Proof.
  unfold uploadFile. destruct (allowed (mimetype f)); cbn.
  - destruct r as [s d|e]; cbn.
    + rewrite Z.eqb_eq. split; [intros ->; eauto|by intros (_ & -> & _)].
    + split; [done|]. by intros (_ & _ & s & d & ?).
  - split; [done|]. by intros [? _].
Qed.

Lemma uploadFile_status (r : AxiosOutcome unit) (f : MulterFile) (s : Z) :
  status (fst (uploadFile r f)) = Some s
  ↔ allowed (mimetype f) = true ∧ recorded_status r = s.
Proof.
  unfold uploadFile. destruct (allowed (mimetype f)); cbn.
  - destruct r as [s' d|e]; cbn; split; try (intros [= <-]; done);
      by intros [_ ->].
  - split; [done|]. by intros [? _].
Qed.

Lemma all_succeed_iff net (fs : list MulterFile) :
  Forall (λ o, success o = true) (post_trackers (postImages net (Some fs)))
  ↔ ∀ i f, fs !! i = Some f →
      allowed (mimetype f) = true ∧ ∃ d, net i = Fulfilled 200 d.
Proof.
  rewrite Forall_lookup. split.
  - intros H i f Hi.
    specialize (H i (fst (uploadFile (net i) f))).
    rewrite RouterSpec.post_trackers_lookup, Hi in H. specialize (H eq_refl).
    apply uploadFile_success in H as (Hok & Hst & s & d & Hr).
    split; [done|]. rewrite Hr in Hst. cbn in Hst. subst s. by exists d.
  - intros H i o Ho. rewrite RouterSpec.post_trackers_lookup in Ho.
    destruct (fs !! i) as [f|] eqn:Hi; [|done]. injection Ho as <-.
    destruct (H i f Hi) as (Hok & d & Hr). apply uploadFile_success.
    rewrite Hr. eauto.
Qed.

Lemma some_500_iff net (fs : list MulterFile) :
  Exists (λ o, status o = Some 500) (post_trackers (postImages net (Some fs)))
  ↔ ∃ i f, fs !! i = Some f ∧ allowed (mimetype f) = true
           ∧ recorded_status (net i) = 500.
Proof.
  rewrite Exists_exists. split.
  - intros (o & Ho & Hs). apply list_elem_of_lookup in Ho as [i Ho].
    rewrite RouterSpec.post_trackers_lookup in Ho.
    destruct (fs !! i) as [f|] eqn:Hi; [|done]. injection Ho as <-.
    apply uploadFile_status in Hs as [Hok Hst]. by exists i, f.
  - intros (i & f & Hi & Hok & Hst). exists (fst (uploadFile (net i) f)). split.
    + apply list_elem_of_lookup. exists i.
      by rewrite RouterSpec.post_trackers_lookup, Hi.
    + by apply uploadFile_status.
Qed.

(** POST /images answers 200 exactly when the batch has at least one file,
    every file has an allowed media type and the host answered 200 to every
    call. *)
Theorem post_images_ok_iff net (files : option (list MulterFile)) :
  code (post_response (postImages net files)) = 200
  ↔ ∃ fs, files = Some fs ∧ fs ≠ []
          ∧ ∀ i f, fs !! i = Some f →
              allowed (mimetype f) = true ∧ ∃ d, net i = Fulfilled 200 d.
Proof.
  destruct files as [[|f0 fs]|].
  - split; [done|]. by intros (fs & [= <-] & ? & _).
  - pose proof (all_succeed_iff net (f0 :: fs)) as Hall.
    assert (post_response (postImages net (Some (f0 :: fs)))
            = aggregate (post_trackers (postImages net (Some (f0 :: fs))))) as ->
      by done.
    destruct (RouterSpec.aggregate_cases (post_trackers (postImages net (Some (f0 :: fs)))))
      as [(HF & ->) | [(HnF & _ & ->) | (HnF & _ & ->)]]; cbn [code].
    + split; [|done]. intros _. exists (f0 :: fs). split; [done|]. split; [done|].
      by apply Hall.
    + split; [done|]. intros (fs' & [= <-] & _ & H). exfalso. by apply HnF, Hall.
    + split; [done|]. intros (fs' & [= <-] & _ & H). exfalso. by apply HnF, Hall.
  - split; [done|]. by intros (fs & ? & _).
Qed.

(** POST /images answers 500 exactly when an outbound call was made for some
    file and ended with the status 500 recorded: the host answered 500, or
    the call was rejected with the status 500 or without any status. *)
Theorem post_images_server_error_iff net (files : option (list MulterFile)) :
  code (post_response (postImages net files)) = 500
  ↔ ∃ fs i f, files = Some fs ∧ fs !! i = Some f
              ∧ allowed (mimetype f) = true ∧ recorded_status (net i) = 500.
Proof.
  destruct files as [[|f0 fs]|].
  - split; [done|]. by intros (fs & i & f & [= <-] & ? & _).
  - pose proof (some_500_iff net (f0 :: fs)) as H500.
    pose proof (all_succeed_iff net (f0 :: fs)) as Hall.
    assert (post_response (postImages net (Some (f0 :: fs)))
            = aggregate (post_trackers (postImages net (Some (f0 :: fs))))) as ->
      by done.
    destruct (RouterSpec.aggregate_cases (post_trackers (postImages net (Some (f0 :: fs)))))
      as [(HF & ->) | [(_ & HE & ->) | (_ & HnE & ->)]]; cbn [code].
    + split; [done|]. intros (fs' & i & f & [= <-] & Hi & Hok & Hst). exfalso.
      destruct (proj1 Hall HF i f Hi) as (_ & d & Hr).
      rewrite Hr in Hst. cbn in Hst. lia.
    + split; [|done]. intros _. apply H500 in HE as (i & f & ?).
      by exists (f0 :: fs), i, f.
    + split; [done|]. intros (fs' & i & f & [= <-] & Hi & Hok & Hst). exfalso.
      apply HnE, H500. by exists i, f.
  - split; [done|]. by intros (fs & i & f & ? & _).
Qed.

(** A file of a disallowed type makes POST /images fail: the answer is never
    200, and it is the 400 with the size-and-type message unless the call of
    some other file recorded the status 500. *)
Theorem post_images_type_error_fails net (fs : list MulterFile) (i : nat)
    (f : MulterFile) :
  fs !! i = Some f → allowed (mimetype f) = false →
  code (post_response (postImages net (Some fs))) ≠ 200
  ∧ ((∀ j g, fs !! j = Some g → allowed (mimetype g) = true →
        recorded_status (net j) ≠ 500) →
     post_response (postImages net (Some fs))
     = {| code := 400; body := Text SOME_FAILED_MESSAGE |}).
Proof.
  intros Hi Hno.
  assert (¬ Forall (λ o, success o = true) (post_trackers (postImages net (Some fs))))
    as HnF.
  { intros HF. destruct (proj1 (all_succeed_iff net fs) HF i f Hi) as [Hok _].
    congruence. }
  destruct fs as [|f0 fs]; [done|].
  assert (post_response (postImages net (Some (f0 :: fs)))
          = aggregate (post_trackers (postImages net (Some (f0 :: fs))))) as ->
    by done.
  destruct (RouterSpec.aggregate_cases (post_trackers (postImages net (Some (f0 :: fs)))))
    as [(HF & _) | [(_ & HE & ->) | (_ & HnE & ->)]]; [done| |].
  - split; [done|]. intros Hno500. exfalso.
    apply some_500_iff in HE as (j & g & Hj & Hok & Hst).
    by apply (Hno500 j g).
  - split; done.
Qed.

Lemma post_images_type_error_fails_witness :
  post_response
    (postImages (λ _, Fulfilled 200 ())
       (Some [Samples.jpg "a.jpg"; Samples.txt "notes.txt"]))
  = {| code := 400; body := Text SOME_FAILED_MESSAGE |}.
Proof.
  apply (post_images_type_error_fails (λ _, Fulfilled 200 ())
           [Samples.jpg "a.jpg"; Samples.txt "notes.txt"] 1%nat
           (Samples.txt "notes.txt") eq_refl eq_refl).
  intros j g _ _. discriminate.
Defined.

(** The router answers with a closed set of status codes: POST /images with
    200, 400 or 500, GET /images with 200 or 500, GET and DELETE
    /image/:imageid with 200, 404 or 500.  A status of the host other than
    404 is never relayed. *)
Theorem router_status_codes :
  (∀ net files, let c := code (post_response (postImages net files)) in
                c = 200 ∨ c = 400 ∨ c = 500)
  ∧ (∀ host, let c := code (fst (getImages host)) in c = 200 ∨ c = 500)
  ∧ (∀ host imageid, let c := code (fst (getImage host imageid)) in
                     c = 200 ∨ c = 404 ∨ c = 500)
  ∧ (∀ host imageid, let c := code (fst (deleteImage host imageid)) in
                     c = 200 ∨ c = 404 ∨ c = 500).
Proof.
  assert (∀ msg e, let c := code (image_failure msg e) in c = 404 ∨ c = 500) as Hfail.
  { intros msg e. unfold image_failure. case_bool_decide; cbn; auto. }
  split; [|split; [|split]].
  - intros net [[|f fs]|]; cbn zeta; [cbn; auto| |cbn; auto].
    assert (post_response (postImages net (Some (f :: fs)))
            = aggregate (post_trackers (postImages net (Some (f :: fs))))) as ->
      by done.
    destruct (RouterSpec.aggregate_cases (post_trackers (postImages net (Some (f :: fs)))))
      as [(_ & ->) | [(_ & _ & ->) | (_ & _ & ->)]]; cbn; auto.
  - intros host. unfold getImages. cbn [fst].
    destruct (host _) as [st [images|]|e]; cbn; auto.
    destruct (mapM toThumbnail images); cbn; auto.
  - intros host imageid. unfold getImage. cbn [fst].
    destruct (host _) as [st [|[image|]]|e]; cbn zeta.
    + destruct (Hfail "Failed to fetch image from Imgur." (ThrowError None None))
        as [?|?]; auto.
    + cbn. auto.
    + cbn. auto.
    + destruct (Hfail "Failed to fetch image from Imgur." e) as [?|?]; auto.
  - intros host imageid. unfold deleteImage. cbn [fst].
    destruct (host _) as [st d|e]; cbn zeta; [cbn; auto|].
    destruct (Hfail "Failed to delete image from Imgur." e) as [?|?]; auto.
Qed.

Lemma toThumbnail_is_Some (image : gmap string jsval) :
  is_Some (toThumbnail image) ↔ ∃ link, image !! "link" = Some (JStr link).
Proof.
  unfold toThumbnail. split.
  - intros [out H]. destruct (image !! "link") as [[| | |link]|]; try done.
    by exists link.
  - intros [link ->]. by eexists.
Qed.

(** GET /images answers 200 exactly when the host call is fulfilled with a
    list in which every image has a string link; one image without such a
    link fails the whole list.  Every other case is answered with the 500
    and its fixed message.  One call is made to the host either way. *)
Theorem get_images_ok_iff
    (host : string → AxiosOutcome (option (list (gmap string jsval)))) :
  (code (fst (getImages host)) = 200
   ↔ ∃ st images,
       host IMGUR_ACCOUNT_IMAGES_ENDPOINT = Fulfilled st (Some images)
       ∧ Forall (λ image, ∃ link, image !! "link" = Some (JStr link)) images)
  ∧ (code (fst (getImages host)) = 200
     ∨ fst (getImages host)
       = {| code := 500; body := Text "Failed to fetch images from Imgur." |})
  ∧ snd (getImages host) = [IMGUR_ACCOUNT_IMAGES_ENDPOINT].
Proof.
  unfold getImages. cbn [fst snd]. split; [|split; [|done]].
  - destruct (host _) as [st [images|]|e] eqn:Hhost.
    + destruct (mapM toThumbnail images) as [out|] eqn:Hmap; cbn.
      * split; [|done]. intros _. exists st, images. split; [done|].
        assert (is_Some (mapM toThumbnail images)) as Hs by by eexists.
        apply mapM_is_Some in Hs. eapply Forall_impl; [exact Hs|].
        intros image Hi. by apply toThumbnail_is_Some.
      * split; [done|]. intros (st' & images' & [= <- <-] & Hall). exfalso.
        assert (is_Some (mapM toThumbnail images)) as [? ?]; [|congruence].
        apply mapM_is_Some. eapply Forall_impl; [exact Hall|].
        intros image Hi. by apply toThumbnail_is_Some.
    + cbn. split; [done|]. by intros (st' & images' & ? & _).
    + cbn. split; [done|]. by intros (st' & images' & ? & _).
  - destruct (host _) as [st [images|]|e]; [|by right|by right].
    destruct (mapM toThumbnail images); [by left|by right].
Qed.


(** An envelope without [data.data] is answered 200 with an empty body; a
    response without an envelope is answered 500. *)
Example get_image_without_data :
  fst (getImage (λ _, Fulfilled 200 (Envelope None)) "imageid")
  = {| code := 200; body := Empty |}
  ∧ fst (getImage (λ _, Fulfilled 200 NoEnvelope) "imageid")
    = {| code := 500; body := Text "Failed to fetch image from Imgur." |}.
Proof. split; reflexivity. Qed.

End RouterExtra.

(** ** More about the upload console *)

Module ConsoleExtra.
Import JsString UploadConsole ConsoleView UploadConsoleSpec.
Local Open Scope nat_scope.
Local Open Scope list_scope.

(** *** The rendered entries *)

Lemma omap_lookup_total {A B : Type} (f : A → option B) (l : list A) :
  (∀ x, x ∈ l → is_Some (f x)) → ∀ k, omap f l !! k = l !! k ≫= f.
Proof.
  induction l as [|x l IH]; intros Hall k; [done|].
  destruct (Hall x) as [y Hy]; [by left|].
  cbn [omap list_omap]. rewrite Hy. destruct k as [|k]; cbn.
  - by rewrite Hy.
  - apply IH. intros x' Hx'. apply Hall. by right.
Qed.

Lemma entries_lookup (c : Component) (k : nat) :
  wf c → entries c !! k = selectedFiles c !! k ≫= λ l, objects c !! l.
Proof.
  intros Hwf. apply omap_lookup_total. intros l. by apply wf_selected_is_Some.
Qed.

Lemma entries_length (c : Component) :
  wf c → length (entries c) = length (selectedFiles c).
Proof.
  intros Hwf. unfold entries.
  assert (∀ l, l ∈ selectedFiles c → is_Some (objects c !! l)) as Hall
    by (intros l; by apply wf_selected_is_Some).
  induction (selectedFiles c) as [|l ls IH]; [done|].
  destruct (Hall l) as [d Hd]; [by left|]. cbn [omap list_omap]. rewrite Hd.
  cbn. f_equal. apply IH. intros l' Hl'. apply Hall. by right.
Qed.

Lemma elem_of_entries (c : Component) (d : FileData) :
  d ∈ entries c ↔ ∃ l, l ∈ selectedFiles c ∧ objects c !! l = Some d.
Proof. unfold entries. apply list_elem_of_omap. Qed.

Lemma omap_ext_elem {A B : Type} (f g : A → option B) (l : list A) :
  (∀ x, x ∈ l → f x = g x) → omap f l = omap g l.
Proof.
  induction l as [|x l IH]; intros Hfg; [done|].
  cbn [omap list_omap]. rewrite (Hfg x) by by left.
  rewrite IH; [done|]. intros x' Hx'. apply Hfg. by right.
Qed.

Lemma omap_alloc_list (ds : list FileData) :
  ∀ (n : nat) (h : gmap nat FileData),
    omap (λ l, alloc_list n ds h !! l) (seq n (length ds)) = ds.
Proof.
  induction ds as [|d ds IH]; intros n h; [done|].
  cbn [length seq omap list_omap alloc_list].
  rewrite alloc_list_lookup_lt by lia. rewrite lookup_insert_eq.
  f_equal. apply IH.
Qed.

(** *** Selection *)

(** Selecting files that would bring the selection above the maximum count
    rejects all of them: the component is left as it was and the only
    effect is the alert about the count.  The count is checked before the
    sizes, so files that are too large count as well. *)
Theorem file_change_over_limit uuidv4 (files : list File) (c : Component) :
  MAX_FILE_COUNT < length files + length (selectedFiles c) →
  handleFileChange uuidv4 files c
  = (c, [Alert "You can only upload a total of 20 files at once."]).
Proof.
  intros Hlim. unfold handleFileChange.
  by rewrite (proj2 (Nat.ltb_lt _ _) Hlim).
Qed.

Lemma entries_handleFileChange uuidv4 (files : list File) (c : Component) :
  wf c →
  length files + length (selectedFiles c) ≤ MAX_FILE_COUNT →
  entries (fst (handleFileChange uuidv4 files c))
  = entries c
    ++ imap (new_entry uuidv4) (filter (λ f, (size f ≤ MAX_FILE_SIZE)%Z) files).
Proof.
  intros Hwf Hlim. unfold handleFileChange.
  assert ((MAX_FILE_COUNT <? length files + length (selectedFiles c)) = false) as ->
    by (apply Nat.ltb_ge; lia).
  cbn [fst].
  assert (filter (λ f, ¬ (MAX_FILE_SIZE < size f)%Z) files
          = filter (λ f, (size f ≤ MAX_FILE_SIZE)%Z) files) as Hvalid.
  { apply list_filter_iff. intros f. lia. }
  unfold entries. cbn [selectedFiles objects]. rewrite omap_app. f_equal.
  - apply omap_ext_elem. intros l Hl. apply alloc_list_lookup_lt.
    by apply wf_selected_below.
  - rewrite omap_alloc_list, Hvalid. done.
Qed.

(** Within the count limit, the files of at most [MAX_FILE_SIZE] bytes are
    appended to the list, in the order given, each as a fresh entry with
    both flags false; the entries already listed are untouched; larger
    files are left out, and an alert is shown exactly when there is one. *)
Theorem file_change_appends uuidv4 (files : list File) (c : Component) :
  reachable c →
  length files + length (selectedFiles c) ≤ MAX_FILE_COUNT →
  entries (fst (handleFileChange uuidv4 files c))
  = entries c
    ++ imap (new_entry uuidv4) (filter (λ f, (size f ≤ MAX_FILE_SIZE)%Z) files)
  ∧ (snd (handleFileChange uuidv4 files c) = []
     ↔ Forall (λ f, (size f ≤ MAX_FILE_SIZE)%Z) files)
  ∧ length (snd (handleFileChange uuidv4 files c)) ≤ 1.
Proof.
  intros Hwf%reachable_wf Hlim.
  split; [by apply entries_handleFileChange|].
  unfold handleFileChange.
  assert ((MAX_FILE_COUNT <? length files + length (selectedFiles c)) = false) as ->
    by (apply Nat.ltb_ge; lia).
  cbn [snd]. split.
  - rewrite length_fmap.
    destruct (filter (λ f, (MAX_FILE_SIZE < size f)%Z) files) as [|f0 big] eqn:Hbig;
      cbn.
    + split; [intros _|done]. apply Forall_forall. intros f Hf.
      destruct (decide (size f ≤ MAX_FILE_SIZE)%Z) as [|Hgt]; [done|].
      exfalso. apply (filter_nil_not_elem_of _ _ f Hbig); [lia|done].
    + split; [done|]. intros Hall. exfalso.
      assert (f0 ∈ filter (λ f, (MAX_FILE_SIZE < size f)%Z) files) as Hin
        by (rewrite Hbig; by left).
      apply list_elem_of_filter in Hin as [Hgt Hin].
      rewrite Forall_forall in Hall. specialize (Hall f0 Hin). lia.
  - destruct (0 <? _); cbn; lia.
Qed.

Lemma file_change_over_limit_witness :
  handleFileChange Samples.uuids MoreSamples.crowd initial
  = (initial, [Alert "You can only upload a total of 20 files at once."]).
Proof.
  apply (file_change_over_limit Samples.uuids MoreSamples.crowd initial).
  vm_compute. lia.
Defined.

Lemma file_change_appends_witness :
  name ∘ file
    <$> entries (fst (handleFileChange Samples.uuids
                        [MoreSamples.huge "big.png"; Samples.photo "small.jpg"]
                        Samples.three_selected))
  = ["one.jpg"; "README"; "three.jpg"; "small.jpg"].
Proof.
  destruct (file_change_appends Samples.uuids
              [MoreSamples.huge "big.png"; Samples.photo "small.jpg"]
              Samples.three_selected) as (-> & _ & _).
  - eexists. exact three_selected_reachable.
  - vm_compute. lia.
  - vm_compute. reflexivity.
Defined.

(** *** What the handlers do to the entries *)

Lemma omap_filter {A B : Type} (f : A → option B) (P : A → Prop) (Q : B → Prop)
    `{∀ x, Decision (P x)} `{∀ y, Decision (Q y)} (l : list A) :
  (∀ x y, x ∈ l → f x = Some y → (P x ↔ Q y)) →
  omap f (filter P l) = filter Q (omap f l).
Proof.
  induction l as [|x l IH]; intros HPQ; [done|].
  assert (omap f (filter P l) = filter Q (omap f l)) as IH'.
  { apply IH. intros x' y Hx'. apply HPQ. by right. }
  rewrite filter_cons. cbn [omap list_omap].
  destruct (f x) as [y|] eqn:Hfx.
  - rewrite filter_cons. pose proof (HPQ x y (list_elem_of_here _ _) Hfx) as Hiff.
    destruct (decide (P x)) as [HP|HP].
    + rewrite decide_True by by apply Hiff.
      cbn [omap list_omap]. by rewrite Hfx, IH'.
    + rewrite decide_False by (by rewrite <- Hiff). done.
  - destruct (decide (P x)); [|done]. cbn [omap list_omap]. by rewrite Hfx.
Qed.

Lemma filter_all {A : Type} (P : A → Prop) `{∀ x, Decision (P x)} (l : list A) :
  (∀ x, x ∈ l → P x) → filter P l = l.
Proof.
  induction l as [|x l IH]; intros Hall; [done|].
  rewrite filter_cons, decide_True by (apply Hall; by left).
  f_equal. apply IH. intros x' Hx'. apply Hall. by right.
Qed.

Lemma entries_handleDelete (i : string) (c : Component) :
  entries (fst (handleDelete i c)) = filter (λ d, id d ≠ i) (entries c).
Proof.
  unfold entries, handleDelete. cbn [fst selectedFiles objects setSelectedFiles].
  apply omap_filter. intros l d _ Hd. unfold has_id. rewrite Hd. cbn.
  split; intros H ?; apply H; congruence.
Qed.

(** Deleting by identifier removes from the list exactly the entries with
    that identifier; the others stay, unchanged and in order.  When no entry
    has the identifier, nothing changes. *)
Theorem delete_removes_matching (i : string) (c : Component) :
  entries (fst (handleDelete i c)) = filter (λ d, id d ≠ i) (entries c)
  ∧ objects (fst (handleDelete i c)) = objects c
  ∧ snd (handleDelete i c) = []
  ∧ (Forall (λ d, id d ≠ i) (entries c) →
     selectedFiles (fst (handleDelete i c)) = selectedFiles c).
Proof.
  split; [apply entries_handleDelete|]. do 2 (split; [done|]).
  intros Hnone. cbn. rewrite Forall_forall in Hnone.
  apply filter_all. intros l Hl Hid. unfold has_id in Hid.
  destruct (objects c !! l) as [d|] eqn:Hd; [|done]. injection Hid as Hid.
  apply (Hnone d); [|done]. apply elem_of_entries. by exists l.
Qed.

Lemma delete_removes_matching_witness :
  name ∘ file <$> entries (fst (handleDelete "id-b" Samples.three_selected))
  = ["one.jpg"; "three.jpg"]
  ∧ selectedFiles (fst (handleDelete "nobody" Samples.three_selected))
    = selectedFiles Samples.three_selected.
Proof.
  split.
  - rewrite (proj1 (delete_removes_matching "id-b" Samples.three_selected)).
    vm_compute. reflexivity.
  - apply (delete_removes_matching "nobody" Samples.three_selected).
    vm_compute. repeat constructor; discriminate.
Defined.

(** *** Renaming *)

Lemma split_dot_dotless_pieces (s : string) :
  has_dot (fst (split_dot s)) = false
  ∧ Forall (λ x, has_dot x = false) (snd (split_dot s)).
Proof.
  induction s as [|c s [IHp IHm]]; [by split|].
  cbn [split_dot]. destruct (split_dot s) as [piece more]. cbn [fst snd] in *.
  destruct (Ascii.eqb c "."%char) eqn:Ec; cbn [fst snd].
  - split; [done|]. by constructor.
  - split; [|done]. cbn. by rewrite Ec, IHp.
Qed.

(** The extension that a rename computes never contains a dot. *)
Lemma pop_split_dotless_result (s e : string) :
  pop (split s) = Some e → has_dot e = false.
Proof.
  unfold pop, split. destruct (split_dot_dotless_pieces s) as [Hp Hm].
  destruct (split_dot s) as [piece more]. cbn [fst snd] in *.
  intros Hlast. apply last_Some in Hlast as [l' Hl'].
  assert (e ∈ piece :: more) as Hin by (rewrite Hl'; set_solver).
  apply elem_of_cons in Hin as [->|Hin]; [done|].
  rewrite Forall_forall in Hm. by apply Hm.
Qed.

Lemma find_entry (c : Component) (i : string) (k : nat) (d0 : FileData) :
  wf c → entries c !! k = Some d0 → id d0 = i →
  (∀ j d, j < k → entries c !! j = Some d → id d ≠ i) →
  ∃ l, list_find (has_id (objects c) i) (selectedFiles c) = Some (k, l)
       ∧ objects c !! l = Some d0.
Proof.
  intros Hwf Hk Hid Hfirst. rewrite entries_lookup in Hk by done.
  destruct (selectedFiles c !! k) as [l|] eqn:Hl; [|done]. cbn in Hk.
  exists l. split; [|done]. apply list_find_Some. split; [done|]. split.
  - unfold has_id. by rewrite Hk, <- Hid.
  - intros j y Hj Hlt Hy. unfold has_id in Hy.
    destruct (objects c !! y) as [d|] eqn:Hd; [|done]. injection Hy as Hy.
    apply (Hfirst j d Hlt); [|done].
    rewrite entries_lookup by done. rewrite Hj. cbn. done.
Qed.

(** The entries after an accepted rename. *)
Lemma entries_handleRename (c : Component) (i newName : string) (k l : nat)
    (d0 : FileData) :
  wf c →
  list_find (has_id (objects c) i) (selectedFiles c) = Some (k, l) →
  objects c !! l = Some d0 →
  NEW_NAME_REGEX_test newName = true →
  snd (handleRename i (Some newName) c) = [Prompt]
  ∧ entries (fst (handleRename i (Some newName) c))
    = (λ d, if String.eqb (id d) i
            then renamed_entry
                   (newName +:+ "."
                    +:+ default EmptyString (pop (split (name (file d0))))) d
            else d) <$> entries c.
Proof.
  intros Hwf Hfind Hd0 Hok.
  pose proof (wf_handleRename i (Some newName) c Hwf) as Hwf'.
  set (ext := default EmptyString (pop (split (name (file d0))))).
  destruct (rename_entries_spec i newName ext
              (selectedFiles c) (objects c) (next_loc c))
    as (ls & h & n & Hren & _ & _ & Hfr & _ & _ & Hlen & Hpos).
  { apply Hwf. } { intros l0. by apply wf_selected_is_Some. } { apply Hwf. }
  assert (handleRename i (Some newName) c
          = ({| objects := h; next_loc := n; selectedFiles := ls;
                isUploading := isUploading c;
                uploadProgressCount := uploadProgressCount c |}, [Prompt])) as Heq.
  { apply (handleRename_accepted c i newName k l Hfind Hok).
    rewrite Hd0. exact Hren. }
  rewrite Heq in Hwf' |- *. cbn [fst snd] in *. split; [done|].
  apply list_eq. intros j.
  rewrite (entries_lookup _ j Hwf'), list_lookup_fmap, (entries_lookup c j Hwf).
  cbn [selectedFiles objects].
  destruct (selectedFiles c !! j) as [lj|] eqn:Hj.
  - destruct (Hpos j lj Hj) as (d & l' & Hd & Hl' & Hrel).
    rewrite Hl'. cbn. rewrite Hd. cbn.
    destruct (String.eqb (id d) i); [exact Hrel|].
    subst l'. rewrite Hfr, Hd; [done|].
    apply wf_selected_below; [done|]. by eapply list_elem_of_lookup_2.
  - cbn. rewrite (proj2 (lookup_ge_None ls j)); [done|].
    rewrite Hlen. by apply lookup_ge_None.
Qed.

(** An accepted rename changes the entries with the addressed identifier
    and no other: each of those gets the name newName + "." + extension,
    where the extension is what follows the last dot in the name of the
    first of them; identifiers, types, sizes, flags, the order and the
    number of entries stay as they were. *)
Theorem rename_changes_only_target (c : Component) (i newName : string)
    (k : nat) (d0 : FileData) :
  reachable c →
  entries c !! k = Some d0 → id d0 = i →
  (∀ j d, j < k → entries c !! j = Some d → id d ≠ i) →
  NEW_NAME_REGEX_test newName = true →
  ∃ ext, pop (split (name (file d0))) = Some ext
    ∧ snd (handleRename i (Some newName) c) = [Prompt]
    ∧ entries (fst (handleRename i (Some newName) c))
      = (λ d, if String.eqb (id d) i
              then {| id := id d;
                      file := {| name := newName +:+ "." +:+ ext;
                                 type := type (file d); size := size (file d) |};
                      uploaded := uploaded d; uploadFailed := uploadFailed d |}
              else d) <$> entries c.
Proof.
  intros Hwf%reachable_wf Hk Hid Hfirst Hok.
  destruct (find_entry c i k d0 Hwf Hk Hid Hfirst) as (l & Hfind & Hd0).
  destruct (JsStringFacts.pop_split_is_Some (name (file d0))) as [ext Hext].
  exists ext. split; [done|].
  destruct (entries_handleRename c i newName k l d0 Hwf Hfind Hd0 Hok) as [-> ->].
  split; [done|]. by rewrite Hext.
Qed.

Lemma rename_changes_only_target_witness :
  name ∘ file
    <$> entries (fst (handleRename "id-c" (Some "holiday") Samples.three_selected))
  = ["one.jpg"; "README"; "holiday.jpg"].
Proof.
  destruct (rename_changes_only_target Samples.three_selected "id-c" "holiday" 2
              {| id := "id-c"; file := Samples.photo "three.jpg";
                 uploaded := false; uploadFailed := false |})
    as (ext & Hext & _ & ->).
  - eexists. exact three_selected_reachable.
  - reflexivity.
  - reflexivity.
  - intros [|[|j]] d Hj Hd; [| |lia]; vm_compute in Hd; injection Hd as <-;
      discriminate.
  - reflexivity.
  - vm_compute in Hext. injection Hext as <-. vm_compute. reflexivity.
Defined.

(** An accepted rename keeps the extension of a dotted name: when the name
    of the addressed file is base + "." + ext, with no dot in ext, the file
    is renamed to newName + "." + ext. *)
Theorem rename_keeps_dotted_extension (c : Component) (i newName base ext : string)
    (k : nat) (d0 : FileData) :
  reachable c →
  entries c !! k = Some d0 → id d0 = i →
  (∀ j d, j < k → entries c !! j = Some d → id d ≠ i) →
  name (file d0) = base +:+ "." +:+ ext → has_dot ext = false →
  NEW_NAME_REGEX_test newName = true →
  entries (fst (handleRename i (Some newName) c)) !! k
  = Some {| id := id d0;
            file := {| name := newName +:+ "." +:+ ext;
                       type := type (file d0); size := size (file d0) |};
            uploaded := uploaded d0; uploadFailed := uploadFailed d0 |}.
Proof.
  intros Hwf%reachable_wf Hk Hid Hfirst Hname Hdot Hok.
  destruct (find_entry c i k d0 Hwf Hk Hid Hfirst) as (l & Hfind & Hd0).
  destruct (entries_handleRename c i newName k l d0 Hwf Hfind Hd0 Hok) as [_ ->].
  rewrite list_lookup_fmap, Hk. cbn.
  rewrite (proj2 (String.eqb_eq _ _) Hid), Hname.
  change (base +:+ "." +:+ ext) with (base +:+ String "."%char ext).
  by rewrite (JsStringFacts.pop_split_last_dot base ext Hdot).
Qed.

Lemma rename_keeps_dotted_extension_witness :
  name ∘ file
    <$> entries (fst (handleRename "id-a" (Some "newname") Samples.three_selected))
        !! 0
  = Some "newname.jpg".
Proof.
  rewrite (rename_keeps_dotted_extension Samples.three_selected "id-a" "newname"
             "one" "jpg" 0
             {| id := "id-a"; file := Samples.photo "one.jpg";
                uploaded := false; uploadFailed := false |}).
  - reflexivity.
  - eexists. exact three_selected_reachable.
  - reflexivity.
  - reflexivity.
  - intros j d Hj. lia.
  - reflexivity.
  - reflexivity.
  - reflexivity.
Defined.

(** A rename that addresses an identifier no listed entry has fails before
    the name is looked at: the prompt is shown, reading the file of the
    entry that was not found throws, and the component is left as it was. *)
Theorem rename_unknown_id (c : Component) (i : string) (newName : option string) :
  Forall (λ d, id d ≠ i) (entries c) →
  handleRename i newName c = (c, [Prompt; Uncaught "TypeError"]).
Proof.
  intros Hnone. unfold handleRename.
  assert (list_find (has_id (objects c) i) (selectedFiles c) = None) as ->; [|done].
  apply list_find_None, Forall_forall. intros l Hl Hid. unfold has_id in Hid.
  destruct (objects c !! l) as [d|] eqn:Hd; [|done]. injection Hid as Hid.
  rewrite Forall_forall in Hnone. apply (Hnone d); [|done].
  apply elem_of_entries. by exists l.
Qed.

Lemma rename_unknown_id_witness :
  handleRename "id-a" (Some "newname") initial
  = (initial, [Prompt; Uncaught "TypeError"]).
Proof. apply (rename_unknown_id initial "id-a" (Some "newname")). constructor. Defined.

Lemma renamed_entry_twice (a b : string) (d : FileData) :
  renamed_entry a (renamed_entry b d) = renamed_entry a d.
Proof. by destruct d. Qed.

(** Renaming a file twice gives the same list as the second rename alone:
    the extension is taken from the current name each time and a rename
    never changes it, so names do not pile up. *)
Theorem rename_twice (c : Component) (i first second : string) (k : nat)
    (d0 : FileData) :
  reachable c →
  entries c !! k = Some d0 → id d0 = i →
  (∀ j d, j < k → entries c !! j = Some d → id d ≠ i) →
  NEW_NAME_REGEX_test first = true → NEW_NAME_REGEX_test second = true →
  entries (fst (handleRename i (Some second) (fst (handleRename i (Some first) c))))
  = entries (fst (handleRename i (Some second) c)).
Proof.
  intros Hwf%reachable_wf Hk Hid Hfirst Hok1 Hok2.
  destruct (find_entry c i k d0 Hwf Hk Hid Hfirst) as (l & Hfind & Hd0).
  destruct (JsStringFacts.pop_split_is_Some (name (file d0))) as [ext Hext].
  pose proof (pop_split_dotless_result _ _ Hext) as Hdot.
  destruct (entries_handleRename c i first k l d0 Hwf Hfind Hd0 Hok1) as [_ He1].
  destruct (entries_handleRename c i second k l d0 Hwf Hfind Hd0 Hok2) as [_ ->].
  rewrite Hext in He1 |- *. cbn [default] in *.
  set (c1 := fst (handleRename i (Some first) c)) in *.
  assert (wf c1) as Hwf1 by by apply wf_handleRename.
  destruct (find_entry c1 i k (renamed_entry (first +:+ "." +:+ ext) d0) Hwf1)
    as (l1 & Hfind1 & Hd1).
  { rewrite He1, list_lookup_fmap, Hk. cbn.
    by rewrite (proj2 (String.eqb_eq _ _) Hid). }
  { done. }
  { intros j d Hj. rewrite He1, list_lookup_fmap.
    destruct (entries c !! j) as [d'|] eqn:Hd'; [|done]. cbn. intros [= <-].
    pose proof (Hfirst j d' Hj Hd') as Hne.
    by destruct (String.eqb (id d') i). }
  destruct (entries_handleRename c1 i second k l1 _ Hwf1 Hfind1 Hd1 Hok2) as [_ ->].
  rewrite He1, <- list_fmap_compose. apply list_fmap_ext. intros _ d _. cbn.
  change (first +:+ "." +:+ ext) with (first +:+ String "."%char ext).
  rewrite (JsStringFacts.pop_split_last_dot first ext Hdot). cbn [default].
  destruct (String.eqb (id d) i) eqn:E; cbn.
  - rewrite E. apply renamed_entry_twice.
  - by rewrite E.
Qed.

Lemma rename_twice_witness :
  name ∘ file
    <$> entries (fst (handleRename "id-b" (Some "second")
                        (fst (handleRename "id-b" (Some "first")
                                Samples.three_selected))))
  = ["one.jpg"; "second.README"; "three.jpg"].
Proof.
  rewrite (rename_twice Samples.three_selected "id-b" "first" "second" 1
             {| id := "id-b"; file := Samples.photo "README";
                uploaded := false; uploadFailed := false |}).
  - vm_compute. reflexivity.
  - eexists. exact three_selected_reachable.
  - reflexivity.
  - reflexivity.
  - intros [|j] d Hj Hd; [|lia]. vm_compute in Hd. injection Hd as <-. discriminate.
  - reflexivity.
  - reflexivity.
Defined.

(** *** Submission *)

(** What a submission makes of the file at position [k]. *)
Lemma submit_kept (c : Component) res (order : list nat) (k l : nat) :
  wf c → settles_each_once c order → selectedFiles c !! k = Some l →
  ∃ d, objects c !! l = Some d ∧ uploaded d = false
       ∧ flag uploaded
           (objects (comp (foldl (settle (selectedFiles c) res) (startUpload c) order))) l
         = succeeded res k
       ∧ (l ∈ selectedFiles (comp (handleSubmit res order c))
          ↔ succeeded res k = false)
       ∧ objects (comp (handleSubmit res order c)) !! l
         = Some (if succeeded res k then write_uploaded true d
                 else write_uploadFailed true d).
Proof.
  intros Hwf Hp Hk. unfold handleSubmit. set (r4 := foldl _ _ _).
  destruct (reconcile_fields (selectedFiles c) r4) as (Hs & Ho & _).
  destruct (settled_object c res order k l Hwf Hp Hk) as (d & Hd & Hu & Hd4).
  fold r4 in Hd4.
  assert (flag uploaded (objects (comp r4)) l = succeeded res k) as Hflag
    by by rewrite (flag_lookup _ _ _ _ Hd4).
  assert (l ∈ selectedFiles (comp (reconcile (selectedFiles c) r4))
          ↔ succeeded res k = false) as Hkept.
  { rewrite Hs, list_elem_of_filter, Hflag. split; [by intros [? _]|].
    intros Hf. split; [done|]. by eapply list_elem_of_lookup_2. }
  exists d. do 3 (split; [done|]). split; [done|].
  rewrite Ho, mark_failed_lookup, Hd4. rewrite <- Hs.
  destruct (succeeded res k) eqn:Hsucc.
  - rewrite decide_False; [done|]. rewrite Hkept. done.
  - rewrite decide_True by by apply Hkept. cbn.
    by rewrite <- Hu, write_uploaded_same.
Qed.

Lemma settle_nothing res (order : list nat) (r : Run) :
  foldl (settle [] res) r order = r.
Proof. induction order as [|k order IH]; [done|]. exact IH. Qed.

(** Submitting with nothing selected makes no request at all, whatever is
    said about requests settling: nothing is fetched, nobody is alerted or
    notified, the selection stays empty and the counter is set to 0. *)
Theorem submit_nothing_selected (c : Component) res (order : list nat) :
  selectedFiles c = [] →
  effects (handleSubmit res order c) = []
  ∧ selectedFiles (comp (handleSubmit res order c)) = []
  ∧ objects (comp (handleSubmit res order c)) = objects c
  ∧ progress (handleSubmit res order c) = [0%Z]
  ∧ isUploading (comp (handleSubmit res order c)) = false.
Proof.
  intros Hsel. unfold handleSubmit. rewrite Hsel, settle_nothing.
  unfold startUpload. rewrite Hsel. done.
Qed.

Lemma submit_nothing_selected_witness :
  effects (handleSubmit Samples.mixed [2; 0; 1] initial) = [].
Proof.
  apply (submit_nothing_selected initial Samples.mixed [2; 0; 1]). reflexivity.
Defined.

(** The effects of a submission, in order: the requests, the errors logged
    by requests that threw, the notification and the alert. *)
Lemma submit_effects (c : Component) res (order : list nat) :
  wf c → settles_each_once c order →
  ∃ es,
    Forall (λ e, e = ConsoleError) es
    ∧ effects (handleSubmit res order c)
      = ((λ d, Fetch (API_ENDPOINT_BASE +:+ IMAGES_ENDPOINT_SUFFIX) (Some (file d)))
           <$> entries c)
        ++ es
        ++ (if existsb (flag uploaded
                          (objects (comp (foldl (settle (selectedFiles c) res)
                                            (startUpload c) order))))
                 (selectedFiles c)
            then [OnUploadSuccess] else [])
        ++ (if existsb (flag uploadFailed (objects (comp (handleSubmit res order c))))
                 (selectedFiles c)
            then [Alert FAILED_MESSAGE] else []).
Proof.
  intros Hwf Hp. unfold handleSubmit. set (r4 := foldl _ _ _).
  destruct (reconcile_fields (selectedFiles c) r4) as (_ & Ho & _ & _ & _ & _ & He).
  destruct (settle_all_frame (selectedFiles c) res order (settles_each_once_lt _ _ Hp)
              (startUpload c)) as (_ & _ & _ & es & Hes4 & Hes).
  fold r4 in Hes4. exists es. split; [done|].
  rewrite He, Hes4, Ho, <- app_assoc. f_equal.
  cbn [startUpload effects emit update setUploadProgressCount app].
  apply list_eq. intros j. rewrite !list_lookup_fmap, (entries_lookup c j Hwf).
  destruct (selectedFiles c !! j) as [l|] eqn:Hl; [|done]. cbn.
  destruct (wf_selected_is_Some c l Hwf) as [d Hd];
    [by eapply list_elem_of_lookup_2|].
  by rewrite Hd.
Qed.

(** A submission sends one request per listed file, in the order of the
    list, each to the images endpoint with that file as its payload, and
    no other request. *)
Theorem submit_one_request_per_file (c : Component) res (order : list nat) :
  reachable c → settles_each_once c order →
  ∃ rest,
    effects (handleSubmit res order c)
    = ((λ d, Fetch (API_ENDPOINT_BASE +:+ IMAGES_ENDPOINT_SUFFIX) (Some (file d)))
         <$> entries c) ++ rest
    ∧ Forall (λ e, ∀ url payload, e ≠ Fetch url payload) rest.
Proof.
  intros Hwf%reachable_wf Hp.
  destruct (submit_effects c res order Hwf Hp) as (es & Hes & ->).
  eexists. split; [done|]. rewrite !Forall_app. split; [|split].
  - eapply Forall_impl; [exact Hes|]. by intros ? ->.
  - destruct (existsb _ _); by repeat constructor.
  - destruct (existsb _ _); by repeat constructor.
Qed.

Lemma submit_one_request_per_file_witness :
  ∃ rest,
    effects (handleSubmit Samples.mixed [2; 0; 1] Samples.three_selected)
    = [Fetch "http://localhost:9001/images" (Some (Samples.photo "one.jpg"));
       Fetch "http://localhost:9001/images" (Some (Samples.photo "README"));
       Fetch "http://localhost:9001/images" (Some (Samples.photo "three.jpg"))]
      ++ rest
    ∧ Forall (λ e, ∀ url payload, e ≠ Fetch url payload) rest.
Proof.
  apply (submit_one_request_per_file Samples.three_selected Samples.mixed [2; 0; 1]).
  - eexists. exact three_selected_reachable.
  - apply (bool_decide_unpack _). vm_compute. exact I.
Defined.

Lemma not_alert_effects (c : Component) (es : list Effect) (b : bool) :
  Forall (λ e, e = ConsoleError) es →
  Alert FAILED_MESSAGE
  ∉ ((λ d, Fetch (API_ENDPOINT_BASE +:+ IMAGES_ENDPOINT_SUFFIX) (Some (file d)))
       <$> entries c)
    ++ es ++ (if b then [OnUploadSuccess] else []).
Proof.
  intros Hes. rewrite !elem_of_app. intros [Hin | [Hin | Hin]].
  - apply list_elem_of_fmap in Hin as (d & Hd & _). done.
  - rewrite Forall_forall in Hes. by specialize (Hes _ Hin).
  - destruct b; [|by apply elem_of_nil in Hin].
    by apply list_elem_of_singleton in Hin.
Qed.

(** The failure alert of a submission is shown exactly when a request of
    this submission did not succeed or a submitted file was already marked
    as failed by an earlier submission: the mark is never taken back, so a
    retry that succeeds for every file is still followed by the alert. *)
Theorem submit_alert_iff (c : Component) res (order : list nat) :
  reachable c → settles_each_once c order →
  Alert FAILED_MESSAGE ∈ effects (handleSubmit res order c)
  ↔ (∃ k, k < length (selectedFiles c) ∧ succeeded res k = false)
    ∨ Exists (λ d, uploadFailed d = true) (entries c).
Proof.
  intros Hwf%reachable_wf Hp.
  destruct (submit_effects c res order Hwf Hp) as (es & Hes & ->).
  rewrite !app_assoc, elem_of_app, <- !app_assoc.
  assert (existsb (flag uploadFailed (objects (comp (handleSubmit res order c))))
            (selectedFiles c) = true
          ↔ (∃ k, k < length (selectedFiles c) ∧ succeeded res k = false)
            ∨ Exists (λ d, uploadFailed d = true) (entries c)) as Hex.
  { rewrite existsb_flag, Exists_exists. split.
    - intros (l & Hl & Hf). apply list_elem_of_lookup in Hl as [k Hk].
      destruct (submit_kept c res order k l Hwf Hp Hk) as (d & Hd & _ & _ & _ & Hd').
      rewrite (flag_lookup _ _ _ _ Hd') in Hf.
      destruct (succeeded res k) eqn:Hs.
      + right. exists d. split; [|done]. apply elem_of_entries. exists l.
        split; [by eapply list_elem_of_lookup_2|done].
      + left. exists k. split; [by eapply lookup_lt_Some|done].
    - intros [(k & Hk & Hs) | (d & Hd & Hf)].
      + destruct (lookup_lt_is_Some_2 _ _ Hk) as [l Hl]. exists l.
        split; [by eapply list_elem_of_lookup_2|].
        destruct (submit_kept c res order k l Hwf Hp Hl) as (d & _ & _ & _ & _ & Hd').
        rewrite (flag_lookup _ _ _ _ Hd'), Hs. done.
      + apply elem_of_entries in Hd as (l & Hl & Hd). exists l. split; [done|].
        apply list_elem_of_lookup in Hl as [k Hk].
        destruct (submit_kept c res order k l Hwf Hp Hk) as (d' & Hd0 & _ & _ & _ & Hd').
        assert (d' = d) as -> by congruence.
        rewrite (flag_lookup _ _ _ _ Hd'). by destruct (succeeded res k). }
  split.
  - intros [Hin | Hin]; [by apply not_alert_effects in Hin|].
    apply Hex. destruct (existsb _ _); [done|by apply elem_of_nil in Hin].
  - intros H. right. rewrite (proj2 Hex H). by left.
Qed.

Lemma submit_alert_iff_witness :
  Alert FAILED_MESSAGE ∈ effects (handleSubmit Samples.all_ok [0; 1] Samples.after_first).
Proof.
  apply (submit_alert_iff Samples.after_first Samples.all_ok [0; 1]).
  - eexists. exact after_first_reachable.
  - apply (bool_decide_unpack _). vm_compute. exact I.
  - right. vm_compute. constructor. reflexivity.
Defined.

Lemma recompute_after_app (es1 es2 : list Effect) (b : bool) :
  App.recompute_after (es1 ++ es2) b
  = App.recompute_after es2 (App.recompute_after es1 b).
Proof. apply foldl_app. Qed.

Lemma recompute_after_quiet (es : list Effect) (b : bool) :
  Forall (λ e, e ≠ OnUploadSuccess) es → App.recompute_after es b = b.
Proof.
  induction 1 as [|e es He _ IH] in b |- *; [done|].
  unfold App.recompute_after in *. cbn [foldl]. rewrite IH. by destruct e.
Qed.

Lemma recompute_after_submit (c : Component) res (order : list nat) (b : bool) :
  wf c → settles_each_once c order →
  ((∃ k, k < length (selectedFiles c) ∧ succeeded res k = true) →
   App.recompute_after (effects (handleSubmit res order c)) b = negb b)
  ∧ ((∀ k, k < length (selectedFiles c) → succeeded res k = false) →
     App.recompute_after (effects (handleSubmit res order c)) b = b).
Proof.
  intros Hwf Hp.
  destruct (submit_effects c res order Hwf Hp) as (es & Hes & ->).
  rewrite !recompute_after_app.
  rewrite (recompute_after_quiet (_ <$> entries c))
    by (apply Forall_fmap, Forall_forall; by intros).
  rewrite (recompute_after_quiet es)
    by (eapply Forall_impl; [exact Hes|]; by intros ? ->).
  assert (∀ (b' x : bool),
            App.recompute_after (if x then [Alert FAILED_MESSAGE] else []) b' = b')
    as Halert by (by intros b' []).
  rewrite Halert.
  assert (existsb (flag uploaded
                     (objects (comp (foldl (settle (selectedFiles c) res)
                                       (startUpload c) order))))
            (selectedFiles c) = true
          ↔ ∃ k, k < length (selectedFiles c) ∧ succeeded res k = true) as Hex.
  { rewrite existsb_flag. split.
    - intros (l & Hl & Hf). apply list_elem_of_lookup in Hl as [k Hk].
      destruct (submit_kept c res order k l Hwf Hp Hk) as (d & _ & _ & Hfl & _).
      exists k. split; [by eapply lookup_lt_Some|congruence].
    - intros (k & Hk & Hs). destruct (lookup_lt_is_Some_2 _ _ Hk) as [l Hl].
      exists l. split; [by eapply list_elem_of_lookup_2|].
      destruct (submit_kept c res order k l Hwf Hp Hl) as (d & _ & _ & Hfl & _).
      congruence. }
  split.
  - intros H. by rewrite (proj2 Hex H).
  - intros Hnone. destruct (existsb _ _) eqn:E; [|done].
    destruct (proj1 Hex eq_refl) as (k & Hk & Hs). rewrite (Hnone k Hk) in Hs. done.
Qed.

(** The shell's [recompute] flag after a submission: it is flipped, once,
    when some request succeeded, and left as it was when none did.  It is
    flipped, not set: a success that finds the flag still set clears it. *)
Theorem submit_toggles_recompute (c : Component) res (order : list nat) (b : bool) :
  reachable c → settles_each_once c order →
  ((∃ k, k < length (selectedFiles c) ∧ succeeded res k = true) →
   App.recompute_after (effects (handleSubmit res order c)) b = negb b)
  ∧ ((∀ k, k < length (selectedFiles c) → succeeded res k = false) →
     App.recompute_after (effects (handleSubmit res order c)) b = b).
Proof. intros Hwf%reachable_wf Hp. by apply recompute_after_submit. Qed.

Lemma submit_toggles_recompute_witness :
  App.recompute_after
    (effects (handleSubmit Samples.mixed [2; 0; 1] Samples.three_selected)) false
  = true
  ∧ App.recompute_after
      (effects (handleSubmit Samples.mixed [2; 0; 1] Samples.three_selected)) true
    = false.
Proof.
  split.
  - apply (submit_toggles_recompute Samples.three_selected Samples.mixed [2; 0; 1] false).
    + eexists. exact three_selected_reachable.
    + apply (bool_decide_unpack _). vm_compute. exact I.
    + exists 0. split; [vm_compute; lia|reflexivity].
  - apply (submit_toggles_recompute Samples.three_selected Samples.mixed [2; 0; 1] true).
    + eexists. exact three_selected_reachable.
    + apply (bool_decide_unpack _). vm_compute. exact I.
    + exists 0. split; [vm_compute; lia|reflexivity].
Defined.

(** *** Invariants of the list *)

Lemma handleRename_outcome (c : Component) (i : string) (newName : option string) :
  fst (handleRename i newName c) = c
  ∨ ∃ nm k l d0, newName = Some nm
      ∧ list_find (has_id (objects c) i) (selectedFiles c) = Some (k, l)
      ∧ objects c !! l = Some d0 ∧ NEW_NAME_REGEX_test nm = true.
Proof.
  unfold handleRename.
  destruct (list_find _ _) as [[k l]|] eqn:Hfind; [|by left].
  destruct newName as [[|ch s]|]; [by left| |by left].
  destruct (NEW_NAME_REGEX_test (String ch s)) eqn:Hok; [|by left].
  right. apply list_find_Some in Hfind as Hfound. destruct Hfound as (_ & Hid & _).
  unfold has_id in Hid. destruct (objects c !! l) as [d0|] eqn:Hd0; [|done].
  by exists (String ch s), k, l, d0.
Qed.

Lemma limits_step (e : Event) (c : Component) :
  wf c → admissible e c →
  length (entries c) ≤ MAX_FILE_COUNT
  ∧ Forall (λ d, (size (file d) ≤ MAX_FILE_SIZE)%Z) (entries c) →
  length (entries (dispatch e c)) ≤ MAX_FILE_COUNT
  ∧ Forall (λ d, (size (file d) ≤ MAX_FILE_SIZE)%Z) (entries (dispatch e c)).
Proof.
  intros Hwf Hadm [Hlen Hsize]. destruct e as [uuidv4 files|res order| |i|i newName];
    cbn [dispatch].
  - destruct (decide (MAX_FILE_COUNT < length files + length (selectedFiles c)))
      as [Hover|Hfits].
    { unfold handleFileChange. by rewrite (proj2 (Nat.ltb_lt _ _) Hover). }
    rewrite entries_handleFileChange by (done || lia). split.
    + rewrite length_app, length_imap, entries_length by done.
      pose proof (length_filter (λ f, (size f ≤ MAX_FILE_SIZE)%Z) files). lia.
    + apply Forall_app. split; [done|]. apply Forall_forall. intros d Hd.
      apply list_elem_of_lookup in Hd as [k Hk]. rewrite list_lookup_imap in Hk.
      destruct (filter _ files !! k) as [f|] eqn:Hf; [|done]. injection Hk as <-.
      apply list_elem_of_lookup_2, list_elem_of_filter in Hf as [Hf _]. exact Hf.
  - pose proof (wf_handleSubmit res order c Hwf Hadm) as Hwf'.
    assert (∀ l, l ∈ selectedFiles (comp (handleSubmit res order c)) →
                 l ∈ selectedFiles c) as Hsub.
    { intros l. unfold handleSubmit.
      destruct (reconcile_fields (selectedFiles c)
                  (foldl (settle (selectedFiles c) res) (startUpload c) order))
        as (-> & _). by intros [_ ?]%list_elem_of_filter. }
    split.
    + rewrite entries_length by done. rewrite entries_length in Hlen by done.
      unfold handleSubmit.
      destruct (reconcile_fields (selectedFiles c)
                  (foldl (settle (selectedFiles c) res) (startUpload c) order))
        as (-> & _).
      pose proof (length_filter
                    (λ l, flag uploaded
                            (objects (comp (foldl (settle (selectedFiles c) res)
                                              (startUpload c) order))) l = false)
                    (selectedFiles c)). lia.
    + apply Forall_forall. intros d' Hd'.
      apply elem_of_entries in Hd' as (l & Hl & Hd').
      apply Hsub, list_elem_of_lookup in Hl as [k Hk].
      destruct (submit_kept c res order k l Hwf Hadm Hk) as (d & Hd & _ & _ & _ & Hnew).
      rewrite Forall_forall in Hsize.
      assert (d ∈ entries c) as Hin.
      { apply elem_of_entries. exists l. split; [by eapply list_elem_of_lookup_2|done]. }
      specialize (Hsize d Hin).
      rewrite Hnew in Hd'. injection Hd' as <-. by destruct (succeeded res k).
  - split; [cbn; lia|]. constructor.
  - rewrite entries_handleDelete. split.
    + pose proof (length_filter (λ d, id d ≠ i) (entries c)). lia.
    + apply Forall_forall. intros d [_ Hd]%list_elem_of_filter.
      rewrite Forall_forall in Hsize. by apply Hsize.
  - destruct (handleRename_outcome c i newName)
      as [-> | (nm & k & l & d0 & -> & Hfind & Hd0 & Hok)]; [done|].
    destruct (entries_handleRename c i nm k l d0 Hwf Hfind Hd0 Hok) as [_ ->].
    split; [by rewrite length_fmap|].
    apply Forall_fmap. eapply Forall_impl; [exact Hsize|].
    intros d Hd. cbn. by destruct (String.eqb (id d) i).
Qed.

(** However the console is used, its list never holds more than
    [MAX_FILE_COUNT] files, and never a file of more than [MAX_FILE_SIZE]
    bytes. *)
Theorem selection_within_limits (c : Component) :
  reachable c →
  length (entries c) ≤ MAX_FILE_COUNT
  ∧ Forall (λ d, (size (file d) ≤ MAX_FILE_SIZE)%Z) (entries c).
Proof.
  intros [evs Hreach]. induction Hreach as [|e evs c Hreach IH Hadm].
  - split; [cbn; lia|constructor].
  - apply limits_step; [by eapply reachable_by_wf|done|done].
Qed.

Lemma selection_within_limits_witness :
  length (entries Samples.after_retry) ≤ MAX_FILE_COUNT
  ∧ Forall (λ d, (size (file d) ≤ MAX_FILE_SIZE)%Z) (entries Samples.after_retry).
Proof.
  apply (selection_within_limits Samples.after_retry).
  eexists. exact after_retry_reachable.
Defined.

(** *** What is shown *)

(** While the console is idle, the colour of the listed files tells what
    happened: before any submission every file is grey; right after a
    submission every file that is still listed is red. *)
Theorem colours_follow_submission (evs : list Event) (c : Component) :
  reachable_by evs c →
  (Forall (λ e, is_submit e = false) evs →
   Forall (λ colour, colour = "text-gray-500") (colours c))
  ∧ (∀ e evs', evs = e :: evs' → is_submit e = true →
     Forall (λ colour, colour = "text-red-500") (colours c)).
Proof.
  intros Hreach. pose proof (reachable_by_wf _ _ Hreach) as Hwf.
  unfold colours. rewrite (wf_idle c Hwf). split.
  - intros Hno. apply Forall_fmap, Forall_forall. intros d Hd.
    apply elem_of_entries in Hd as (l & Hl & Hd).
    destruct (unsubmitted_flags _ _ Hreach Hno l Hl) as (d' & Hd' & _ & Hf).
    assert (d' = d) as -> by congruence. cbn. by rewrite Hf.
  - intros e evs' -> He. inversion Hreach as [|e' evs'' c0 Hreach0 Hadm]; subst.
    destruct e as [| res order | | |]; try discriminate.
    apply Forall_fmap, Forall_forall. intros d Hd.
    apply elem_of_entries in Hd as (l & Hl & Hd).
    destruct (submit_retained_flags res order c0 (reachable_by_wf _ _ Hreach0) Hadm l Hl)
      as (d' & Hd' & _ & Hf).
    cbn [dispatch] in Hd. assert (d' = d) as -> by congruence. cbn. by rewrite Hf.
Qed.

Lemma colours_follow_submission_witness :
  Forall (λ colour, colour = "text-gray-500") (colours Samples.three_selected)
  ∧ Forall (λ colour, colour = "text-red-500") (colours Samples.after_first).
Proof.
  split.
  - apply (colours_follow_submission _ Samples.three_selected three_selected_reachable).
    repeat constructor.
  - eapply (colours_follow_submission _ Samples.after_first after_first_reachable);
      reflexivity.
Defined.

(** The name shown for a listed file, in UTF-16 code units as [length] and
    [slice] count them: a name of at most 40 units is shown as it is; a
    longer one is cut to its first 40 units followed by three dots, 43 units
    in all.  The text shown never exceeds 43 units. *)
Theorem shown_name_bounds (n : CodeUnits) :
  (js_length n ≤ 40 → shown_name n = n)
  ∧ (40 < js_length n →
     js_length (shown_name n) = 43
     ∧ ∃ rest, rest ≠ []
         ∧ n = js_concat (slice_to 40 n) rest
         ∧ shown_name n = js_concat (slice_to 40 n) (code_units "..."))
  ∧ js_length (shown_name n) ≤ 43.
Proof.
  unfold shown_name, js_length, slice_to, js_concat. split; [|split].
  - intros Hlen. rewrite (proj2 (Nat.ltb_ge _ _) Hlen).
    rewrite take_ge by done. apply app_nil_r.
  - intros Hlen. rewrite (proj2 (Nat.ltb_lt _ _) Hlen). split.
    + rewrite length_app, length_take, Nat.min_l by lia. done.
    + exists (drop 40 n). split; [|by rewrite take_drop].
      intros Hnil. apply (f_equal length) in Hnil.
      rewrite length_drop in Hnil. cbn in Hnil. lia.
  - rewrite length_app, length_take.
    pose proof (Nat.le_min_l 40 (length n)).
    destruct (40 <? length n); cbn [code_units list_ascii_of_string fmap
                                    list_fmap length]; lia.
Qed.

Lemma shown_name_bounds_witness :
  shown_name (code_units "ABC.jpg") = code_units "ABC.jpg"
  ∧ js_length
      (shown_name
         (code_units "AAAAAAAAAAAAAAAAAAAAAAAAAAAAAAAAAAAAAAAAAAAAAAAAAA.jpg")) = 43.
Proof.
  split.
  - apply (shown_name_bounds (code_units "ABC.jpg")). vm_compute. lia.
  - apply (shown_name_bounds
             (code_units "AAAAAAAAAAAAAAAAAAAAAAAAAAAAAAAAAAAAAAAAAAAAAAAAAA.jpg")).
    vm_compute. lia.
Defined.

(** A name of 25 accented letters and an extension is 29 code units long,
    whatever its length in bytes, and is shown whole. *)
Example accented_name_shown_whole :
  shown_name (replicate 25 233%N ++ code_units ".jpg")
  = replicate 25 233%N ++ code_units ".jpg".
Proof. reflexivity. Qed.

(** The cut falls on code units, not on characters: of a surrogate pair
    that straddles the 40th unit only the first half is shown. *)
Example name_cut_inside_pair :
  shown_name (replicate 39 65%N ++ [55357%N; 56832%N] ++ code_units ".jpg")
  = replicate 39 65%N ++ [55357%N] ++ code_units "...".
Proof. reflexivity. Qed.

End ConsoleExtra.

(** ** The image grid *)

Module GridExtra.
Import JsString Router ImageGrid.
Local Open Scope list_scope.

(** Closes a goal from a membership in a list none of whose elements it can
    be. *)
Ltac absent H :=
  repeat (apply elem_of_cons in H as [H|H]; [discriminate|]);
  by apply elem_of_nil in H.

(** Deleting from the grid: the images change only when the server
    confirmed the deletion, and then exactly the images with the identifier
    are taken out; every other outcome leaves the images as they are and
    alerts the user once, with the not-found text exactly for an answer with
    status 404.  The delete buttons are enabled again in every case. *)
Theorem grid_delete_only_confirmed (suffix imageId : string) (out : FetchOutcome)
    (g : Grid) :
  let r := handleDelete suffix imageId out g in
  isDeleting (fst r) = false
  ∧ isError (fst r) = isError g
  ∧ head (snd r)
    = Some (Request "DELETE"
              (UploadConsole.API_ENDPOINT_BASE +:+ suffix +:+ imageId))
  ∧ ((∃ resp, out = Responded resp ∧ ok resp = true) →
     images (fst r) = filter (other_id imageId) (images g)
     ∧ Forall (λ e, ∀ msg, e ≠ GridAlert msg) (snd r))
  ∧ ((∀ resp, out = Responded resp → ok resp = false) →
     images (fst r) = images g
     ∧ ∃ before msg,
         snd r = before ++ [GridAlert msg]
         ∧ Forall (λ e, ∀ m, e ≠ GridAlert m) before
         ∧ (msg = NOT_FOUND_ALERT
            ↔ ∃ resp, out = Responded resp ∧ status resp = 404)).
Proof.
  cbv zeta. unfold handleDelete.
  destruct out as [resp|]; [destruct (ok resp) eqn:Hok;
                            [|destruct (status resp =? 404) eqn:Hst]|];
    cbn [fst snd isDeleting isError images setIsDeleting setImages head].
  - do 3 (split; [done|]). split.
    + intros _. split; [done|]. repeat constructor. done.
    + intros Hno. specialize (Hno resp eq_refl). congruence.
  - do 3 (split; [done|]). split.
    + intros (resp' & [= <-] & ?). congruence.
    + intros _. split; [done|]. eexists [_], _. split; [done|].
      split; [repeat constructor; done|]. split; [|done].
      intros _. exists resp. split; [done|]. by apply Z.eqb_eq.
  - do 3 (split; [done|]). split.
    + intros (resp' & [= <-] & ?). congruence.
    + intros _. split; [done|]. eexists [_], _. split; [done|].
      split; [repeat constructor; done|]. split; [done|].
      intros (resp' & [= <-] & Hs). apply Z.eqb_neq in Hst. done.
  - do 3 (split; [done|]). split.
    + by intros (resp' & ? & _).
    + intros _. split; [done|]. eexists [_; _], _. split; [done|].
      split; [repeat constructor; done|]. split; [done|].
      by intros (resp' & ? & _).
Qed.

Lemma grid_delete_only_confirmed_witness :
  images (fst (handleDelete "/image/" "1" (MoreSamples.answered true 200)
                 MoreSamples.two_images))
  = [MoreSamples.grid_image "2" "Other"]
  ∧ images (fst (handleDelete "/image/" "1" (MoreSamples.answered false 404)
                   MoreSamples.two_images))
    = images MoreSamples.two_images.
Proof.
  split.
  - destruct (grid_delete_only_confirmed "/image/" "1" (MoreSamples.answered true 200)
                MoreSamples.two_images) as (_ & _ & _ & Hok & _).
    destruct Hok as [-> _]; [by eexists|]. vm_compute. reflexivity.
  - destruct (grid_delete_only_confirmed "/image/" "1" (MoreSamples.answered false 404)
                MoreSamples.two_images) as (_ & _ & _ & _ & Hno).
    destruct Hno as [-> _]; [|reflexivity].
    intros resp [= <-]. reflexivity.
Defined.

(** Loading the list: nothing is requested while [recompute] is off;
    [recompute] is switched off only by a load that succeeded, which
    replaces the images by the ones received; a load that failed keeps the
    images, raises the error flag and leaves [recompute] on. *)
Theorem grid_load_outcomes (recompute : bool) (out : FetchOutcome) (g : Grid) :
  let r := fetchImages recompute out g in
  (recompute = false → r = (g, []))
  ∧ (SetRecompute false ∈ snd r →
     recompute = true
     ∧ isError (fst r) = isError g
     ∧ ∃ resp, out = Responded resp ∧ ok resp = true
               ∧ json resp = Some (images (fst r)))
  ∧ (recompute = true → SetRecompute false ∉ snd r →
     images (fst r) = images g ∧ isError (fst r) = true
     ∧ App.recompute_after_grid (snd r) recompute = true)
  ∧ (recompute = true →
     head (snd r)
     = Some (Request "GET" (UploadConsole.API_ENDPOINT_BASE
                            +:+ UploadConsole.IMAGES_ENDPOINT_SUFFIX))).
Proof.
  cbv zeta. unfold fetchImages. destruct recompute.
  2: { split; [done|]. split; [by intros ?%elem_of_nil|]. split; done. }
  split; [done|].
  destruct out as [resp|]; [destruct (ok resp) eqn:Hok;
                            [destruct (json resp) as [imgs|] eqn:Hjson|]|];
    cbn [negb fst snd images isError setImages setIsError].
  - split; [|split; [|done]].
    + intros _. split; [done|]. split; [done|]. by exists resp.
    + intros _ Hnot. exfalso. apply Hnot. right. by left.
  - split; [|split; [|done]].
    + intros Hin. absent Hin.
    + by intros _ _.
  - split; [|split; [|done]].
    + intros Hin. absent Hin.
    + by intros _ _.
  - split; [|split; [|done]].
    + intros Hin. absent Hin.
    + by intros _ _.
Qed.

Lemma grid_load_outcomes_witness :
  fetchImages false NetworkError MoreSamples.two_images = (MoreSamples.two_images, [])
  ∧ isError (fst (fetchImages true NetworkError MoreSamples.two_images)) = true.
Proof.
  split.
  - apply (grid_load_outcomes false NetworkError MoreSamples.two_images). reflexivity.
  - apply (grid_load_outcomes true NetworkError MoreSamples.two_images);
      [reflexivity|]. vm_compute. intros H. absent H.
Defined.

Lemma grid_step_keeps_error (e : GridEvent) (g : Grid) :
  isError g = true → isError (grid_step e g) = true.
Proof.
  intros Herr. destruct e as [recompute out|suffix imageId out]; cbn [grid_step].
  - unfold fetchImages. destruct recompute; [|done].
    destruct out as [resp|]; [|done].
    destruct (ok resp); [|done]. by destruct (json resp).
  - unfold handleDelete. destruct out as [resp|]; [|done].
    destruct (ok resp); [done|]. by destruct (status resp =? 404).
Qed.

(** The error flag of the grid is final: once a load has failed, no load
    and no deletion, successful or not, takes the error message away. *)
Theorem grid_error_is_final (evs : list GridEvent) (g : Grid) :
  isError g = true → isError (foldl (λ g e, grid_step e g) g evs) = true.
Proof.
  revert g. induction evs as [|e evs IH]; intros g Herr; [done|].
  cbn [foldl]. by apply IH, grid_step_keeps_error.
Qed.

Lemma grid_error_is_final_witness :
  isError
    (foldl (λ g e, grid_step e g)
       (grid_step (Load true NetworkError) empty_grid)
       [Load true
          (Responded {| ok := true; status := 200;
                        json := Some [MoreSamples.grid_image "1" "Test Image"] |});
        DeleteClicked "/image/" "1" (MoreSamples.answered true 200)])
  = true.
Proof. apply grid_error_is_final. reflexivity. Defined.

(** The title shown on a card, in UTF-16 code units as [length] and [slice]
    count them: a title of at most 30 units is shown as it is; a longer one
    is cut to its first 30 units followed by three dots.  The text shown
    never exceeds 33 units. *)
Theorem shown_title_bounds (title : CodeUnits) :
  ((js_length title ≤ 30)%nat → shown_title title = title)
  ∧ ((30 < js_length title)%nat →
     js_length (shown_title title) = 33%nat
     ∧ shown_title title = js_concat (slice_to 30 title) (code_units "..."))
  ∧ (js_length (shown_title title) ≤ 33)%nat.
Proof.
  unfold shown_title, js_length, slice_to, js_concat. split; [|split].
  - intros Hlen. by rewrite (proj2 (Nat.ltb_ge _ _) Hlen).
  - intros Hlen. rewrite (proj2 (Nat.ltb_lt _ _) Hlen). split; [|done].
    rewrite length_app, length_take, Nat.min_l by lia. done.
  - destruct (30 <? length title)%nat eqn:E.
    + rewrite length_app, length_take.
      pose proof (Nat.le_min_l 30 (length title)).
      change (length (code_units "...")) with 3%nat. lia.
    + apply Nat.ltb_ge in E. lia.
Qed.

Lemma shown_title_bounds_witness :
  shown_title (code_units "Test Image") = code_units "Test Image"
  ∧ shown_title (code_units "ABCDEFGHIJKLMNOPQRSTUVWXYZ12345")
    = code_units "ABCDEFGHIJKLMNOPQRSTUVWXYZ1234...".
Proof.
  split.
  - apply (shown_title_bounds (code_units "Test Image")). vm_compute. lia.
  - apply (shown_title_bounds (code_units "ABCDEFGHIJKLMNOPQRSTUVWXYZ12345")).
    vm_compute. lia.
Defined.

(** A title of 20 accented letters is 20 code units long, whatever its
    length in bytes, and is shown whole. *)
Example accented_title_shown_whole :
  shown_title (replicate 20 233%N) = replicate 20 233%N.
Proof. reflexivity. Qed.

(** Deleting an image through the router.  When the answer that the grid
    receives carries the status of DELETE /image/:imageid and counts as ok
    exactly for a status from 200 to 299: a deletion that the host accepts
    takes the image out of the grid without an alert; one that the host
    rejects leaves the grid as it is and alerts the user, with the not-found
    text exactly when the host said 404. *)
Theorem delete_round_trip (host : string → AxiosOutcome unit)
    (suffix imageId : string) (resp : FetchResponse) (g : Grid) :
  status resp = code (fst (deleteImage host imageId)) →
  ok resp = bool_decide (200 ≤ status resp ≤ 299) →
  let r := handleDelete suffix imageId (Responded resp) g in
  (∀ st d, host (image_url imageId) = Fulfilled st d →
     images (fst r) = filter (other_id imageId) (images g)
     ∧ Forall (λ e, ∀ msg, e ≠ GridAlert msg) (snd r))
  ∧ (∀ e, host (image_url imageId) = Rejected e →
     images (fst r) = images g
     ∧ GridAlert (if bool_decide (error_status e = Some 404)
                  then NOT_FOUND_ALERT else DELETE_FAILED_ALERT) ∈ snd r).
Proof.
  intros Hst Hok. cbv zeta. unfold deleteImage in Hst. cbn [fst] in Hst.
  unfold handleDelete. split.
  - intros st d Hhost. rewrite Hhost in Hst. cbn in Hst.
    rewrite Hst in Hok. rewrite Hok. cbn. split; [done|]. repeat constructor. done.
  - intros e Hhost. rewrite Hhost in Hst. unfold image_failure in Hst.
    destruct (bool_decide (error_status e = Some 404));
      cbn [code] in Hst; rewrite Hok, Hst; cbn;
      (split; [done|]); right; by left.
Qed.

Lemma delete_round_trip_witness :
  images (fst (handleDelete "/image/" "1" (MoreSamples.answered false 404)
                 MoreSamples.two_images))
  = images MoreSamples.two_images
  ∧ GridAlert NOT_FOUND_ALERT
    ∈ snd (handleDelete "/image/" "1" (MoreSamples.answered false 404)
             MoreSamples.two_images).
Proof.
  destruct (delete_round_trip
              (λ _, Rejected (ThrowError None (Some {| resp_status := Some 404 |})))
              "/image/" "1"
              {| ok := false; status := 404; json := None |}
              MoreSamples.two_images eq_refl eq_refl) as [_ Hrejected].
  exact (Hrejected (ThrowError None (Some {| resp_status := Some 404 |})) eq_refl).
Defined.

End GridExtra.

(** ** The parts together *)

Module ShellExtra.
Import Router UploadConsole ConsoleView UploadConsoleSpec.
Local Open Scope list_scope.

(** The answer of POST /images to a batch of one file. *)
Lemma single_file_answer (net : nat → AxiosOutcome unit) (mf : MulterFile) :
  let c := code (post_response (postImages net (Some [mf]))) in
  (c = 200 ↔ allowed (mimetype mf) = true ∧ ∃ u, net 0%nat = Fulfilled 200 u)
  ∧ (c = 200 ∨ c = 400 ∨ c = 500)
  ∧ (allowed (mimetype mf) = false → post_calls (postImages net (Some [mf])) = []).
Proof.
  cbv zeta. unfold postImages, uploadFile. cbn [imap fmap list_fmap fst snd].
  destruct (allowed (mimetype mf)) eqn:Hok; cbn [negb].
  - destruct (net 0%nat) as [s u|e]; cbn.
    + unfold aggregate. cbn. destruct (s =? 200) eqn:Hs; cbn.
      * apply Z.eqb_eq in Hs as ->. split; [|split; [auto|done]].
        split; [|done]. intros _. split; [done|]. by exists u.
      * apply Z.eqb_neq in Hs. case_bool_decide; cbn;
          (split; [|split; [auto|done]]);
          (split; [done|]); intros (_ & u' & [= ? _]); done.
    + unfold aggregate. cbn. case_bool_decide; cbn;
        (split; [|split; [auto|done]]);
        (split; [done|]); by intros (_ & u' & ?).
  - unfold aggregate. cbn. split; [|split; [auto|done]].
    split; [done|]. by intros [? _].
Qed.

(** Uploading through the router.  The console sends every file in a
    request of its own.  When each request is answered by POST /images for
    the one-file batch with the file's name and type, and counts as ok
    exactly for a status from 200 to 299: a file leaves the list exactly
    when its type is on the allow-list and the host answered 200 to its
    upload; a file of any other type stays listed, is marked as failed,
    and no call to the host is made for it. *)
Theorem upload_round_trip (c : Component) res (order : list nat)
    (net : nat → nat → AxiosOutcome unit) (wire : nat → MulterFile) :
  reachable c → settles_each_once c order →
  (∀ k l d, selectedFiles c !! k = Some l → objects c !! l = Some d →
     originalname (wire k) = name (file d) ∧ mimetype (wire k) = type (file d)
     ∧ res k
       = Resolved
           (bool_decide
              (200 ≤ code (post_response (postImages (net k) (Some [wire k]))) ≤ 299))) →
  ∀ k l d, selectedFiles c !! k = Some l → objects c !! l = Some d →
    (l ∉ selectedFiles (comp (handleSubmit res order c))
     ↔ allowed (type (file d)) = true ∧ ∃ u, net k 0%nat = Fulfilled 200 u)
    ∧ (allowed (type (file d)) = false →
       objects (comp (handleSubmit res order c)) !! l
       = Some (write_uploadFailed true d)
       ∧ post_calls (postImages (net k) (Some [wire k])) = []).
Proof.
  intros Hwf%reachable_wf Hp Hwire k l d Hk Hd.
  destruct (Hwire k l d Hk Hd) as (_ & Htype & Hres).
  destruct (ConsoleExtra.submit_kept c res order k l Hwf Hp Hk)
    as (d' & Hd' & _ & _ & Hkept & Hobj).
  assert (d' = d) as -> by congruence.
  destruct (single_file_answer (net k) (wire k)) as (H200 & Hcodes & Hcalls).
  cbv zeta in H200, Hcodes. rewrite Htype in H200, Hcalls.
  assert (succeeded res k = true
          ↔ allowed (type (file d)) = true ∧ ∃ u, net k 0%nat = Fulfilled 200 u)
    as Hsucc.
  { etrans; [|exact H200]. unfold succeeded. rewrite Hres.
    case_bool_decide as Hrange; split; try done; [|intros Hc; lia].
    intros _. destruct Hcodes as [?|[?|?]]; [done|lia|lia]. }
  split.
  - rewrite Hkept, <- Hsucc. by destruct (succeeded res k).
  - intros Hno. split; [|by apply Hcalls].
    destruct (succeeded res k) eqn:E; [|done].
    destruct (proj1 Hsucc eq_refl) as [? _]. congruence.
Qed.

Lemma two_types_reachable :
  reachable_by
    [FileChange Samples.uuids [Samples.photo "a.jpg"; MoreSamples.webp "b.webp"]]
    MoreSamples.two_types.
Proof. exact (reach_event (FileChange _ _) [] initial reach_initial I). Defined.

Lemma upload_round_trip_witness :
  1%nat ∈ selectedFiles
            (comp (handleSubmit MoreSamples.received [1; 0]%nat MoreSamples.two_types))
  ∧ 0%nat ∉ selectedFiles
              (comp (handleSubmit MoreSamples.received [1; 0]%nat MoreSamples.two_types)).
Proof.
  assert (∀ k l d,
            selectedFiles MoreSamples.two_types !! k = Some l →
            objects MoreSamples.two_types !! l = Some d →
            originalname (MoreSamples.wire k) = name (file d)
            ∧ mimetype (MoreSamples.wire k) = type (file d)
            ∧ MoreSamples.received k
              = Resolved
                  (bool_decide
                     (200 ≤ code (post_response
                                    (postImages (MoreSamples.willing k)
                                       (Some [MoreSamples.wire k]))) ≤ 299)))
    as Hwire.
  { intros [|[|k]] l d Hk Hd; vm_compute in Hk; [| |discriminate];
      injection Hk as <-; vm_compute in Hd; injection Hd as <-;
      repeat split; vm_compute; reflexivity. }
  assert (settles_each_once MoreSamples.two_types [1; 0]%nat) as Hp.
  { apply (bool_decide_unpack _). vm_compute. exact I. }
  split.
  - destruct (upload_round_trip MoreSamples.two_types MoreSamples.received [1; 0]%nat
                MoreSamples.willing MoreSamples.wire
                (ex_intro _ _ two_types_reachable)
                Hp Hwire 1%nat 1%nat
                {| id := "id-b"; file := MoreSamples.webp "b.webp";
                   uploaded := false; uploadFailed := false |}
                eq_refl eq_refl) as [Hkept _].
    destruct (decide (1%nat ∈ selectedFiles
                (comp (handleSubmit MoreSamples.received [1; 0]%nat
                         MoreSamples.two_types)))) as [|Hout]; [done|].
    apply Hkept in Hout as [Hallowed _]. discriminate.
  - apply (upload_round_trip MoreSamples.two_types MoreSamples.received [1; 0]%nat
             MoreSamples.willing MoreSamples.wire
             (ex_intro _ _ two_types_reachable)
             Hp Hwire 0%nat 0%nat
             {| id := "id-a"; file := Samples.photo "a.jpg";
                uploaded := false; uploadFailed := false |}
             eq_refl eq_refl).
    split; [reflexivity|]. by exists ().
Defined.

Lemma failed_load_keeps_recompute (out : ImageGrid.FetchOutcome) (g : ImageGrid.Grid) :
  ImageGrid.SetRecompute false ∉ snd (ImageGrid.fetchImages true out g) →
  App.recompute_after_grid (snd (ImageGrid.fetchImages true out g)) true = true
  ∧ ImageGrid.isError (fst (ImageGrid.fetchImages true out g)) = true.
Proof.
  unfold ImageGrid.fetchImages.
  destruct out as [resp|]; [|done].
  destruct (ImageGrid.ok resp); [|done].
  destruct (ImageGrid.json resp); [|done].
  intros Hnot. exfalso. apply Hnot. right. by left.
Qed.

(** An upload after a failed load does not bring the list back.  The load
    that failed left [recompute] on; the success of a later submission
    flips it off; with [recompute] off the grid requests nothing, and it
    goes on showing its error message. *)
Theorem upload_after_failed_load (c : Component) res (order : list nat)
    (out : ImageGrid.FetchOutcome) (g : ImageGrid.Grid) :
  reachable c → settles_each_once c order →
  (∃ k, (k < length (selectedFiles c))%nat ∧ succeeded res k = true) →
  ImageGrid.SetRecompute false ∉ snd (ImageGrid.fetchImages true out g) →
  let failed := ImageGrid.fetchImages true out g in
  let recompute :=
    App.recompute_after (effects (handleSubmit res order c))
      (App.recompute_after_grid (snd failed) true) in
  recompute = false
  ∧ ImageGrid.isError (fst failed) = true
  ∧ ∀ out', ImageGrid.fetchImages recompute out' (fst failed) = (fst failed, []).
Proof.
  intros Hwf%reachable_wf Hp Hsome Hfailed. cbv zeta.
  destruct (failed_load_keeps_recompute out g Hfailed) as [-> Herr].
  rewrite (proj1 (ConsoleExtra.recompute_after_submit c res order true Hwf Hp) Hsome).
  done.
Qed.

Lemma upload_after_failed_load_witness :
  App.recompute_after
    (effects (handleSubmit Samples.mixed [2; 0; 1]%nat Samples.three_selected))
    (App.recompute_after_grid
       (snd (ImageGrid.fetchImages true ImageGrid.NetworkError ImageGrid.empty_grid))
       true)
  = false.
Proof.
  apply (upload_after_failed_load Samples.three_selected Samples.mixed [2; 0; 1]%nat
           ImageGrid.NetworkError ImageGrid.empty_grid).
  - eexists. exact three_selected_reachable.
  - apply (bool_decide_unpack _). vm_compute. exact I.
  - exists 0%nat. split; [vm_compute; lia|reflexivity].
  - vm_compute. intros H. GridExtra.absent H.
Defined.

End ShellExtra.
